(** * Viewport grid mapping of the WebGPU demos

    A shallow embedding of the pan/zoom line grid and of the selectable
    cell grid of [src/grid2d.js], and of the two start-up paths that check
    for the device: [main] of [src/minor.js] and the main script with its
    [getDevice().then(...).catch(...)] chain.

    JavaScript numbers are embedded as exact rationals ([Q]): the
    development states what the arithmetic of the program computes, leaving
    IEEE-754 rounding, NaN and the infinities out.  Wherever the program
    divides, the statements carry the side condition under which the
    JavaScript quotient is finite.  Integral numbers (loop indices, cell
    indices, canvas sizes) are embedded as [Z] and [N].  Where the rounding
    decides a property, the line generator and its handlers are embedded a
    second time over binary64 numbers ([LineGridDouble]). *)

From Stdlib Require Import ZArith QArith Qround Qminmax List Lia Lqa String.
From Stdlib Require SpecFloat.
From stdpp Require Import gmap.
Import ListNotations.

(** ** JavaScript number primitives *)

Module JS.
Local Open Scope Q_scope.

(** [a < b] on numbers. *)
Definition ltb (a b : Q) : bool := negb (Qle_bool b a).

(** [a <= b] on numbers. *)
Definition leb (a b : Q) : bool := Qle_bool a b.

(** [Math.max(a, b)] and [Math.min(a, b)]. *)
Definition max (a b : Q) : Q := if leb a b then b else a.
Definition min (a b : Q) : Q := if leb a b then a else b.

(** [Math.floor] and [Math.ceil]. *)
Definition floor (a : Q) : Z := Qfloor a.
Definition ceil (a : Q) : Z := Qceiling a.

(** The remainder operator [%] on integral numbers: the result takes the
    sign of the dividend, and a zero divisor yields NaN, here [None]. *)
Definition rem (a b : Z) : option Z :=
  if (b =? 0)%Z then None else Some (Z.rem a b).

(** [x === 0] for the result of [%]; NaN is not equal to anything, and
    the negative zero of [-5 % 5] is strictly equal to [0]. *)
Definition isZero (r : option Z) : bool :=
  match r with
  | Some z => (z =? 0)%Z
  | None => false
  end.
End JS.

(** ** Shared data *)

Record Vec2 : Type := mkVec2 { x : Q; y : Q }.

(** Equality of points, coordinate by coordinate, as numbers. *)
Definition Vec2_eq (a b : Vec2) : Prop := (x a == x b /\ y a == y b)%Q.

(** The canvas element; [width] and [height] are unsigned integers. *)
Record Canvas : Type := mkCanvas { width : N; height : N }.

Definition widthQ (c : Canvas) : Q := inject_Z (Z.of_N (width c)).
Definition heightQ (c : Canvas) : Q := inject_Z (Z.of_N (height c)).

(** The bounding client rectangle of the canvas (only its corner is read). *)
Record Rect : Type := mkRect { left : Q; top : Q }.

(** ** The pan/zoom line grid (first demo of [src/grid2d.js]) *)

Module LineGrid.
Local Open Scope Q_scope.

(** The grid parameters, constants of the demo. *)
Record GridConfig : Type := mkGridConfig {
  baseCellSize : Q;
  sectionInterval : Z
}.

(** [const baseCellSize = 50.0; const sectionInterval = 5;] *)
Definition gridConfig : GridConfig :=
  {| baseCellSize := 50; sectionInterval := 5 |}.

(** The two vertex arrays, flat lists of numbers: every line pushes its
    four endpoint coordinates [x0, y0, x1, y1]. *)
Record Lines : Type := mkLines {
  majorLineVertices : list Q;
  minorLineVertices : list Q
}.

(** The mutable variables of the closure of [initGrid2d]. *)
Record State : Type := mkState {
  canvas : Canvas;
  currentZoom : Q;
  panOffset : Vec2;
  lines : Lines;
  isPanning : bool;
  lastMousePos : Vec2
}.

(** The uniform block written by [frame] and read by the vertex shader. *)
Record Uniforms : Type := mkUniforms {
  scale_factor_xy : Vec2;
  grid_origin_pixels_xy : Vec2;
  viewport_size_xy : Vec2
}.

Record WheelEvent : Type := mkWheelEvent {
  deltaY : Q;
  wheelClientX : Q;
  wheelClientY : Q
}.

Record MouseEvent : Type := mkMouseEvent {
  button : Z;
  clientX : Q;
  clientY : Q
}.

(** What the event loop delivers to the demo. *)
Inductive Event : Type :=
| Wheel (rect : Rect) (event : WheelEvent)
| MouseDown (event : MouseEvent)
| MouseMove (event : MouseEvent)
| MouseUp
| MouseLeave
| Resize (inlineSize blockSize : Q).

(** A line as the [line-list] topology reads it from a vertex array:
    two vertices of two floats each. *)
Record Segment : Type := mkSegment { x0 : Q; y0 : Q; x1 : Q; y1 : Q }.

Definition lineEndpoints (s : Segment) : list Q :=
  [x0 s; y0 s; x1 s; y1 s].

(** [for (let i = lo; i <= hi; i++) body(i)], with [n] iterations left. *)
Fixpoint forLoop {A : Type} (n : nat) (i : Z) (body : Z -> A -> A) (a : A) : A :=
  match n with
  | O => a
  | S n' => forLoop n' (i + 1)%Z body (body i a)
  end.

Definition forRange {A : Type} (lo hi : Z) (body : Z -> A -> A) (a : A) : A :=
  forLoop (Z.to_nat (hi - lo + 1)) lo body a.

Section Program.
Context (cfg : GridConfig).

(** [index % sectionInterval === 0] *)
Definition isMajor (index : Z) : bool :=
  JS.isZero (JS.rem index (sectionInterval cfg)).

(** The body shared by the two loops: push the endpoints on the major
    or on the minor array. *)
Definition pushLine (index : Z) (s : Segment) (ls : Lines) : Lines :=
  if isMajor index
  then {| majorLineVertices := majorLineVertices ls ++ lineEndpoints s;
          minorLineVertices := minorLineVertices ls |}
  else {| majorLineVertices := majorLineVertices ls;
          minorLineVertices := minorLineVertices ls ++ lineEndpoints s |}.

Definition effectiveCellSize (st : State) : Q :=
  baseCellSize cfg * currentZoom st.

Definition gridOriginX (st : State) : Q :=
  widthQ (canvas st) / 2 + x (panOffset st).
Definition gridOriginY (st : State) : Q :=
  heightQ (canvas st) / 2 + y (panOffset st).

Definition viewMinLogicalX (st : State) : Q :=
  (- gridOriginX st) / effectiveCellSize st - 5.
Definition viewMaxLogicalX (st : State) : Q :=
  (widthQ (canvas st) - gridOriginX st) / effectiveCellSize st + 5.
Definition viewMinLogicalY (st : State) : Q :=
  (- gridOriginY st) / effectiveCellSize st - 5.
Definition viewMaxLogicalY (st : State) : Q :=
  (heightQ (canvas st) - gridOriginY st) / effectiveCellSize st + 5.

(** The endpoints of the vertical line at logical [lx] and of the
    horizontal line at logical [ly]. *)
Definition verticalLine (st : State) (lx : Z) : Segment :=
  {| x0 := inject_Z lx; y0 := viewMinLogicalY st - 5;
     x1 := inject_Z lx; y1 := viewMaxLogicalY st + 5 |}.
Definition horizontalLine (st : State) (ly : Z) : Segment :=
  {| x0 := viewMinLogicalX st - 5; y0 := inject_Z ly;
     x1 := viewMaxLogicalX st + 5; y1 := inject_Z ly |}.

Definition emptyLines : Lines :=
  {| majorLineVertices := []; minorLineVertices := [] |}.

Definition generateGridVertices (st : State) : Lines :=
  if JS.ltb (effectiveCellSize st) 2 then emptyLines
  else
    let ls1 :=
      forRange (JS.floor (viewMinLogicalX st)) (JS.ceil (viewMaxLogicalX st))
        (fun lx => pushLine lx (verticalLine st lx)) emptyLines in
    forRange (JS.floor (viewMinLogicalY st)) (JS.ceil (viewMaxLogicalY st))
      (fun ly => pushLine ly (horizontalLine st ly)) ls1.

(** [updateVertexBuffers]: regenerate the arrays; the two GPU buffers
    are copies of them. *)
Definition updateVertexBuffers (st : State) : State :=
  {| canvas := canvas st; currentZoom := currentZoom st;
     panOffset := panOffset st; lines := generateGridVertices st;
     isPanning := isPanning st; lastMousePos := lastMousePos st |}.

(** [frame]: the uniform values of the current camera. *)
Definition frameUniforms (st : State) : Uniforms :=
  {| scale_factor_xy :=
       {| x := effectiveCellSize st; y := effectiveCellSize st |};
     grid_origin_pixels_xy :=
       {| x := gridOriginX st; y := gridOriginY st |};
     viewport_size_xy :=
       {| x := widthQ (canvas st); y := heightQ (canvas st) |} |}.

(** [vs_main], step 1:
    [pixel_pos = logical_pos * scale_factor_xy + grid_origin_pixels_xy]. *)
Definition pixel_pos (uniforms : Uniforms) (logical_pos : Vec2) : Vec2 :=
  {| x := x logical_pos * x (scale_factor_xy uniforms)
          + x (grid_origin_pixels_xy uniforms);
     y := y logical_pos * y (scale_factor_xy uniforms)
          + y (grid_origin_pixels_xy uniforms) |}.

Definition logicalToPixel (st : State) (logical : Vec2) : Vec2 :=
  pixel_pos (frameUniforms st) logical.

(** The wheel handler's [logicalMouseX], [logicalMouseY]:
    [logical_pos = (pixel_pos - grid_origin_pixels_xy) / scale_factor_xy]. *)
Definition pixelToLogical (st : State) (mouse : Vec2) : Vec2 :=
  {| x := (x mouse - (widthQ (canvas st) / 2 + x (panOffset st)))
          / (baseCellSize cfg * currentZoom st);
     y := (y mouse - (heightQ (canvas st) / 2 + y (panOffset st)))
          / (baseCellSize cfg * currentZoom st) |}.

(** The zoom update of the wheel handler. *)
Definition zoomStep (event : WheelEvent) (zoom : Q) : Q :=
  let zoomIntensity := 0.1 in
  let scroll := if JS.ltb (deltaY event) 0 then 1 else -1 in
  let zoomFactor := 1 + scroll * zoomIntensity in
  JS.max 0.05 (JS.min (zoom * zoomFactor) 20.0).

Definition wheelCamera (rect : Rect) (event : WheelEvent) (st : State) : State :=
  let oldZoom := currentZoom st in
  let newZoom := zoomStep event oldZoom in
  let mouseX := wheelClientX event - left rect in
  let mouseY := wheelClientY event - top rect in
  let logicalMouse := pixelToLogical st {| x := mouseX; y := mouseY |} in
  {| canvas := canvas st;
     currentZoom := newZoom;
     panOffset :=
       {| x := mouseX - widthQ (canvas st) / 2
               - x logicalMouse * (baseCellSize cfg * newZoom);
          y := mouseY - heightQ (canvas st) / 2
               - y logicalMouse * (baseCellSize cfg * newZoom) |};
     lines := lines st;
     isPanning := isPanning st;
     lastMousePos := lastMousePos st |}.

Definition wheel (rect : Rect) (event : WheelEvent) (st : State) : State :=
  updateVertexBuffers (wheelCamera rect event st).

Definition mousedown (event : MouseEvent) (st : State) : State :=
  if (button event =? 0)%Z
  then {| canvas := canvas st; currentZoom := currentZoom st;
          panOffset := panOffset st; lines := lines st;
          isPanning := true;
          lastMousePos := {| x := clientX event; y := clientY event |} |}
  else st.

Definition mousemove (event : MouseEvent) (st : State) : State :=
  if isPanning st
  then
    let dx := clientX event - x (lastMousePos st) in
    let dy := clientY event - y (lastMousePos st) in
    updateVertexBuffers
      {| canvas := canvas st; currentZoom := currentZoom st;
         panOffset := {| x := x (panOffset st) + dx;
                         y := y (panOffset st) + dy |};
         lines := lines st;
         isPanning := isPanning st;
         lastMousePos := {| x := clientX event; y := clientY event |} |}
  else st.

Definition stopPanning (st : State) : State :=
  {| canvas := canvas st; currentZoom := currentZoom st;
     panOffset := panOffset st; lines := lines st;
     isPanning := false; lastMousePos := lastMousePos st |}.

(** The resize observer: [Math.max(1, Math.floor(size))]. *)
Definition resize (inlineSize blockSize : Q) (st : State) : State :=
  let newWidth := Z.to_N (Z.max 1 (JS.floor inlineSize)) in
  let newHeight := Z.to_N (Z.max 1 (JS.floor blockSize)) in
  if negb (N.eqb (width (canvas st)) newWidth)
     || negb (N.eqb (height (canvas st)) newHeight)
  then updateVertexBuffers
         {| canvas := {| width := newWidth; height := newHeight |};
            currentZoom := currentZoom st; panOffset := panOffset st;
            lines := lines st; isPanning := isPanning st;
            lastMousePos := lastMousePos st |}
  else st.

Definition step (ev : Event) (st : State) : State :=
  match ev with
  | Wheel rect event => wheel rect event st
  | MouseDown event => mousedown event st
  | MouseMove event => mousemove event st
  | MouseUp | MouseLeave => stopPanning st
  | Resize inlineSize blockSize => resize inlineSize blockSize st
  end.

Definition run (evs : list Event) (st : State) : State :=
  fold_left (fun s ev => step ev s) evs st.

(** The state after [initGrid2d] has run its synchronous part. *)
Definition initialState (c : Canvas) : State :=
  updateVertexBuffers
    {| canvas := c; currentZoom := 1.0;
       panOffset := {| x := 0.0; y := 0.0 |};
       lines := emptyLines; isPanning := false;
       lastMousePos := {| x := 0; y := 0 |} |}.
End Program.

(** Reading a vertex array back as the list of lines it draws. *)
Fixpoint segments (vs : list Q) : list Segment :=
  match vs with
  | a :: b :: c :: d :: rest => mkSegment a b c d :: segments rest
  | _ => []
  end.

Definition emitted (ls : Lines) : list Segment :=
  segments (majorLineVertices ls) ++ segments (minorLineVertices ls).

(** A vertical line at logical [i] is drawn: both endpoints of some
    emitted line have abscissa [i]; likewise for a horizontal line. *)
Definition emittedVertical (ls : Lines) (i : Z) : Prop :=
  exists s, In s (emitted ls) /\ x0 s == inject_Z i /\ x1 s == inject_Z i.
Definition emittedHorizontal (ls : Lines) (j : Z) : Prop :=
  exists s, In s (emitted ls) /\ y0 s == inject_Z j /\ y1 s == inject_Z j.

(** The indices a loop of [n] iterations from [lo] visits, in order. *)
Fixpoint zrange (n : nat) (lo : Z) : list Z :=
  match n with
  | O => []
  | S n' => lo :: zrange n' (lo + 1)%Z
  end.

(** The indices the two loops of [generateGridVertices] visit. *)
Definition visibleX (cfg : GridConfig) (st : State) : list Z :=
  let lo := JS.floor (viewMinLogicalX cfg st) in
  let hi := JS.ceil (viewMaxLogicalX cfg st) in
  zrange (Z.to_nat (hi - lo + 1)) lo.
Definition visibleY (cfg : GridConfig) (st : State) : list Z :=
  let lo := JS.floor (viewMinLogicalY cfg st) in
  let hi := JS.ceil (viewMaxLogicalY cfg st) in
  zrange (Z.to_nat (hi - lo + 1)) lo.

(** The vertex array that draws a list of lines. *)
Definition flatten (l : list Segment) : list Q :=
  concat (map lineEndpoints l).

(** The two corners of the viewport, in pixels. *)
Definition topLeft : Vec2 := {| x := 0; y := 0 |}.
Definition bottomRight (st : State) : Vec2 :=
  {| x := widthQ (canvas st); y := heightQ (canvas st) |}.

(** The margin, in cells, the range calculation adds on every side. *)
Definition margin : Z := 5.

(** A canvas of 800 by 600 pixels right after start-up. *)
Definition sampleState : State := initialState gridConfig (mkCanvas 800 600).

(** The same canvas, zoomed out to three hundredths. *)
Definition tinyState : State :=
  {| canvas := mkCanvas 800 600; currentZoom := 0.03;
     panOffset := {| x := 0; y := 0 |}; lines := emptyLines;
     isPanning := false; lastMousePos := {| x := 0; y := 0 |} |}.

(** The zoom range of the camera. *)
Definition zoomInRange (st : State) : Prop :=
  0.05 <= currentZoom st <= 20.0.
End LineGrid.

(** ** The selectable cell grid (second demo of [src/grid2d.js]) *)

Module CellGrid.
Local Open Scope Q_scope.

(** [const gridSize = 10;] *)
Definition gridSize : Z := 10.

(** The mutable variables of the closure; [selectedCells] is a [Set] of
    cell indices. *)
Record State : Type := mkState {
  canvas : Canvas;
  scale : Q;
  cameraPos : Vec2;
  selectedCells : gset Z
}.

Record WheelEvent : Type := mkWheelEvent { deltaY : Q }.
Record ClickEvent : Type := mkClickEvent { clientX : Q; clientY : Q }.

Inductive Event : Type :=
| Wheel (e : WheelEvent)
| Click (rect : Rect) (e : ClickEvent).

(** [scale += e.deltaY * -0.001 * zoomSpeed;
     scale = Math.max(0.1, Math.min(scale, 5.0));] *)
Definition wheel (e : WheelEvent) (st : State) : State :=
  let zoomSpeed := 0.1 in
  let scale1 := scale st + deltaY e * -0.001 * zoomSpeed in
  {| canvas := canvas st;
     scale := JS.max 0.1 (JS.min scale1 5.0);
     cameraPos := cameraPos st;
     selectedCells := selectedCells st |}.

(** [(Math.min(canvas.width, canvas.height) / gridSize) * scale] *)
Definition cellSize (st : State) : Q :=
  (JS.min (widthQ (canvas st)) (heightQ (canvas st)) / inject_Z gridSize)
  * scale st.

Definition mouseX (rect : Rect) (e : ClickEvent) : Q := clientX e - left rect.
Definition mouseY (rect : Rect) (e : ClickEvent) : Q := clientY e - top rect.

Definition gridX (rect : Rect) (e : ClickEvent) (st : State) : Z :=
  JS.floor ((mouseX rect e - x (cameraPos st)) / cellSize st).
Definition gridY (rect : Rect) (e : ClickEvent) (st : State) : Z :=
  JS.floor ((mouseY rect e - y (cameraPos st)) / cellSize st).

Definition cellIndex (rect : Rect) (e : ClickEvent) (st : State) : Z :=
  (gridY rect e st * gridSize + gridX rect e st)%Z.

(** The click handler: toggle the index in the set. *)
Definition click (rect : Rect) (e : ClickEvent) (st : State) : State :=
  let cellIndex := cellIndex rect e st in
  {| canvas := canvas st;
     scale := scale st;
     cameraPos := cameraPos st;
     selectedCells :=
       if decide (cellIndex ∈ selectedCells st)
       then selectedCells st ∖ {[ cellIndex ]}
       else selectedCells st ∪ {[ cellIndex ]} |}.

Definition step (ev : Event) (st : State) : State :=
  match ev with
  | Wheel e => wheel e st
  | Click rect e => click rect e st
  end.

Definition run (evs : list Event) (st : State) : State :=
  fold_left (fun s ev => step ev s) evs st.

(** [let scale = 1.0; let cameraPos = { x: 0, y: 0 };
     const selectedCells = new Set();] *)
Definition initialState (c : Canvas) : State :=
  {| canvas := c; scale := 1.0; cameraPos := {| x := 0; y := 0 |};
     selectedCells := ∅ |}.

(** The zoom range of the camera. *)
Definition scaleInRange (st : State) : Prop := 0.1 <= scale st <= 5.0.

(** The cell indices of the grid. *)
Definition inGrid (i : Z) : Prop := (0 <= i <= gridSize * gridSize - 1)%Z.

(** A square canvas of 200 pixels and a wide one of 400 by 200, right
    after start-up. *)
Definition squareState : State := initialState (mkCanvas 200 200).
Definition wideState : State := initialState (mkCanvas 400 200).
End CellGrid.

(** ** Start-up: acquiring the device *)

Module Startup.
Local Open Scope string_scope.

(** What a start-up path does to the outside world, in order. *)
Inductive Effect : Type :=
| Alert (msg : string)
| ConsoleLog (label : string)
| ConsoleError (error : string)
| RequestAdapter
| RequestDevice
| QuerySelector (selector : string)
| GetContext
| GetPreferredCanvasFormat
| Configure
| CreateShaderModule (label : string)
| CreateRenderPipeline (label : string)
| CreateComputePipeline (label : string)
| Observe
| Render
| RenderCompute.

(** How a run of asynchronous code ends: it returns, or it throws (the
    promise is rejected). *)
Inductive Completion (A : Type) : Type :=
| Normal (a : A)
| Throw (error : string).
Arguments Normal {A} a.
Arguments Throw {A} error.

(** Asynchronous code, run to completion: the effects it performed and
    how it ended. *)
Definition Async (A : Type) : Type := (list Effect * Completion A)%type.

Definition ret {A : Type} (a : A) : Async A := ([], Normal a).
Definition throw {A : Type} (error : string) : Async A := ([], Throw error).
Definition emit (e : Effect) : Async unit := ([e], Normal tt).

(** Sequencing, and [await]: a thrown error skips the continuation. *)
Definition bind {A B : Type} (m : Async A) (k : A -> Async B) : Async B :=
  match m with
  | (t, Normal a) => let '(t', c) := k a in ((t ++ t')%list, c)
  | (t, Throw error) => (t, Throw error)
  end.

(** [p.then(onFulfilled).catch(onRejected)] *)
Definition thenCatch {A B : Type} (p : Async A)
    (onFulfilled : A -> Async B) (onRejected : string -> Async B) : Async B :=
  match bind p onFulfilled with
  | (t, Normal b) => (t, Normal b)
  | (t, Throw error) =>
      let '(t', c) := onRejected error in ((t ++ t')%list, c)
  end.

Notation "x <- m ;; k" := (bind m (fun x => k))
  (at level 100, m at next level, right associativity).
Notation "m ;; k" := (bind m (fun _ => k))
  (at level 100, right associativity).

Definition effects {A : Type} (m : Async A) : list Effect := fst m.
Definition completion {A : Type} (m : Async A) : Completion A := snd m.

(** The environment: what the browser answers. *)
Inductive Device : Type := GPUDevice.
(** [requestDevice()] resolves to a device, or rejects ([None]). *)
Record Adapter : Type := mkAdapter { deviceAnswer : option Device }.
(** [requestAdapter()] resolves to an adapter, or to [null] ([None]). *)
Record Gpu : Type := mkGpu { adapterAnswer : option Adapter }.
(** [navigator.gpu] is an object, or [undefined] ([None]). *)
Record Navigator : Type := mkNavigator { gpu : option Gpu }.

Definition requestAdapter (g : Gpu) : Async (option Adapter) :=
  emit RequestAdapter ;; ret (adapterAnswer g).

Definition requestDevice (a : Adapter) : Async Device :=
  emit RequestDevice ;;
  match deviceAnswer a with
  | Some d => ret d
  | None => throw "OperationError"
  end.

(** [function fail(msg) { alert(msg); }] *)
Definition fail (msg : string) : Async unit := emit (Alert msg).

(** [await navigator.gpu?.requestAdapter()] *)
Definition optRequestAdapter (navigator : Navigator) : Async (option Adapter) :=
  match gpu navigator with
  | None => ret None
  | Some g => requestAdapter g
  end.

(** [await adapter?.requestDevice()] *)
Definition optRequestDevice (adapter : option Adapter) : Async (option Device) :=
  match adapter with
  | None => ret None
  | Some a => d <- requestDevice a ;; ret (Some d)
  end.

(** [main] of [src/minor.js]. *)
Definition main (navigator : Navigator) : Async unit :=
  adapter <- optRequestAdapter navigator ;;
  device <- optRequestDevice adapter ;;
  match device with
  | None => fail "need a browser that supports WebGPU"
  | Some _ =>
      emit (QuerySelector "canvas") ;;
      emit GetContext ;;
      emit GetPreferredCanvasFormat ;;
      emit Configure ;;
      emit (CreateShaderModule "hardcoded triangle") ;;
      emit (CreateShaderModule "triangle shaders with uniforms") ;;
      emit (CreateShaderModule "checkerboard") ;;
      emit (CreateRenderPipeline "hardcoded checkerboard triangle pipeline") ;;
      emit Observe
  end.

(** [getDevice] of the main script. *)
Definition getDevice (navigator : Navigator) : Async Device :=
  match gpu navigator with
  | None => throw "WebGPU не поддерживается."
  | Some _ =>
      adapter <- optRequestAdapter navigator ;;
      match adapter with
      | None => throw "Не удалось загрузить адаптер"
      | Some a => requestDevice a
      end
  end.

(** The main script: its synchronous prefix, then
    [getDevice().then(...).catch(console.error)]. *)
Definition mainScript (navigator : Navigator) : Async unit :=
  emit (QuerySelector "#app") ;;
  emit (QuerySelector "canvas") ;;
  emit GetContext ;;
  emit (ConsoleLog "navigator.gpu") ;;
  thenCatch (getDevice navigator)
    (fun loadedDevice =>
       emit (ConsoleLog "device") ;;
       emit GetPreferredCanvasFormat ;;
       emit Configure ;;
       emit (CreateShaderModule "Красный треугольник") ;;
       emit (CreateShaderModule "doubling compute module") ;;
       emit (CreateRenderPipeline "our hardcoded red triangle pipeline") ;;
       emit (CreateComputePipeline "doubling compute module") ;;
       emit Render ;;
       emit RenderCompute)
    (fun error => emit (ConsoleError error)).

Definition isAlert (e : Effect) : bool :=
  match e with Alert _ => true | _ => false end.

Definition isConsoleError (e : Effect) : bool :=
  match e with ConsoleError _ => true | _ => false end.

(** The effects that set the device up or render with it. *)
Definition isSetup (e : Effect) : bool :=
  match e with
  | GetPreferredCanvasFormat | Configure | CreateShaderModule _
  | CreateRenderPipeline _ | CreateComputePipeline _ | Observe
  | Render | RenderCompute => true
  | _ => false
  end.

(** No adapter can be had: [navigator.gpu] is missing, or
    [requestAdapter] resolves to [null]. *)
Definition unsupported (navigator : Navigator) : bool :=
  match gpu navigator with
  | None => true
  | Some g => match adapterAnswer g with None => true | Some _ => false end
  end.

Definition isRequest (e : Effect) : bool :=
  match e with RequestAdapter | RequestDevice => true | _ => false end.

(** The failure is reported once by an alert, the device is not asked
    for again, and nothing is set up or rendered. *)
Definition alertedOnceAndHalted (m : Async unit) : Prop :=
  List.length (List.filter isAlert (effects m)) = 1%nat
  /\ (List.length (List.filter isRequest (effects m)) <= 1)%nat
  /\ List.filter isSetup (effects m) = []
  /\ completion m = Normal tt.

(** The same, with the report on the console instead. *)
Definition loggedOnceAndHalted (m : Async unit) : Prop :=
  List.filter isAlert (effects m) = []
  /\ List.length (List.filter isConsoleError (effects m)) = 1%nat
  /\ (List.length (List.filter isRequest (effects m)) <= 1)%nat
  /\ List.filter isSetup (effects m) = []
  /\ completion m = Normal tt.

(** The start-up paths that check for the device. *)
Definition startups : list (Navigator -> Async unit) := [main; mainScript].

(** Every start-up path answers an unsupported environment with one
    alert and stops. *)
Definition unsupportedIsAlerted : Prop :=
  forall start, In start startups ->
  forall navigator, unsupported navigator = true ->
  alertedOnceAndHalted (start navigator).
End Startup.

(** ** The line grid: shader output, buffers and idle events *)

Module LineGridView.
Import LineGrid.
Local Open Scope Q_scope.

(** [vs_main], whole: the clip-space position is
    [vec4(ndc_x, ndc_y, 0.0, 1.0)]; its first two components. *)
Definition vs_main (uniforms : Uniforms) (logical_pos : Vec2) : Vec2 :=
  let pixel_pos := pixel_pos uniforms logical_pos in
  let ndc_x := (x pixel_pos / x (viewport_size_xy uniforms)) * 2.0 - 1.0 in
  let ndc_y := (1.0 - (y pixel_pos / y (viewport_size_xy uniforms))) * 2.0 in
  {| x := ndc_x; y := ndc_y |}.

(** [updateVertexBuffers]: the size of the buffer created for an array,
    [Math.max(16, vertices.length * 4)], and whether the array is written
    to it ([vertices.length > 0]). *)
Definition vertexBufferSize (vertices : list Q) : Z :=
  Z.max 16 (Z.of_nat (List.length vertices) * 4).

Definition writesBuffer (vertices : list Q) : bool :=
  (0 <? Z.of_nat (List.length vertices))%Z.

(** [frame]: the vertex count of a draw call, [vertices.length / 2];
    the call is made when the array is not empty. *)
Definition drawCount (vertices : list Q) : Q :=
  inject_Z (Z.of_nat (List.length vertices)) / 2.

(** The events that leave a camera at rest alone: moves, releases, and
    presses of a button other than the left one. *)
Definition idle (ev : Event) : Prop :=
  match ev with
  | MouseMove _ | MouseUp | MouseLeave => True
  | MouseDown event => button event <> 0%Z
  | Wheel _ _ | Resize _ _ => False
  end.

(** A drag: the moves of the mouse with the button held. *)
Definition drag (path : list MouseEvent) : list Event := map MouseMove path.

(** Where the mouse is after a drag that started at [start]. *)
Fixpoint dragEnd (path : list MouseEvent) (start : Vec2) : Vec2 :=
  match path with
  | [] => start
  | event :: rest => dragEnd rest {| x := clientX event; y := clientY event |}
  end.

(** The vertex arrays are the ones of the current camera. *)
Definition inSync (cfg : GridConfig) (st : State) : Prop :=
  lines st = generateGridVertices cfg st.

(** The sample state with the left button pressed at (100, 100). *)
Definition pressedState : State :=
  mousedown (mkMouseEvent 0 100 100) sampleState.

(** A notch of the wheel in and one out, at the pixel (400, 300). *)
Definition notchIn : WheelEvent := mkWheelEvent (-100) 400 300.
Definition notchOut : WheelEvent := mkWheelEvent 100 400 300.

(** The centre of the canvas, in pixels. *)
Definition centre (st : State) : Vec2 :=
  {| x := widthQ (canvas st) / 2; y := heightQ (canvas st) / 2 |}.

(** The wheel events that zoom in ([deltaY < 0]) and out. *)
Definition zoomsIn (event : WheelEvent) : Prop := deltaY event < 0.
Definition zoomsOut (event : WheelEvent) : Prop := 0 <= deltaY event.
End LineGridView.

(** ** The cell grid: the vertex shader *)

Module CellShader.
Local Open Scope Q_scope.

(** [struct GridUniforms] *)
Record GridUniforms : Type := mkGridUniforms {
  gridSize : N;
  scale : Q;
  cameraPos : Vec2
}.

(** [struct VertexInput]; [instance] is the instance index. *)
Record VertexInput : Type := mkVertexInput {
  position : Vec2;
  instance : N
}.

(** [struct VertexOutput]; the position is [vec4f(pos, 0.0, 1.0)]. *)
Record VertexOutput : Type := mkVertexOutput {
  outPosition : Vec2;
  cellIndex : N
}.

(** Division and remainder on [u32]; dividing by zero yields the
    dividend, the remainder by zero is zero. *)
Definition u32div (a b : N) : N := if (b =? 0)%N then a else (a / b)%N.
Definition u32mod (a b : N) : N := if (b =? 0)%N then 0%N else (a mod b)%N.

(** The conversion [f32(n)]. *)
Definition f32 (n : N) : Q := inject_Z (Z.of_N n).

(** [vertexMain] *)
Definition vertexMain (gridUniforms : GridUniforms) (input : VertexInput) : VertexOutput :=
  let cellSize := 2.0 / f32 (gridSize gridUniforms) * scale gridUniforms in
  let cellPadding := cellSize * 0.05 in
  let cellX := f32 (u32mod (instance input) (gridSize gridUniforms)) in
  let cellY := f32 (u32div (instance input) (gridSize gridUniforms)) in
  let pos1 :=
    {| x := x (position input) * (cellSize - cellPadding) + cellX * cellSize;
       y := y (position input) * (cellSize - cellPadding) + cellY * cellSize |} in
  let pos2 := {| x := x pos1 * 2.0 - 1.0; y := y pos1 * 2.0 - 1.0 |} in
  let pos3 := {| x := x pos2 + x (cameraPos gridUniforms);
                 y := y pos2 + y (cameraPos gridUniforms) |} in
  {| outPosition := pos3; cellIndex := instance input |}.

(** The uniforms the shader receives from [render] at start-up.  The
    buffer is written as the floats [gridSize, scale, cameraPos.x,
    cameraPos.y], that is 10, 1, 0, 0, and the shader reads its first word
    as a [u32]: the bit pattern 0x41200000 of the float 10. *)
Definition sampleUniforms : GridUniforms :=
  {| gridSize := 1092616192; scale := 1; cameraPos := {| x := 0; y := 0 |} |}.

(** The side of a cell in clip space, [2.0 / f32(gridSize) * scale]. *)
Definition cellSize (gridUniforms : GridUniforms) : Q :=
  2.0 / f32 (gridSize gridUniforms) * scale gridUniforms.

(** The instance that draws the cell of a column and a row, the layout
    of the click handler's [gridY * gridSize + gridX]. *)
Definition instanceOf (gridUniforms : GridUniforms) (col row : N) : N :=
  (row * gridSize gridUniforms + col)%N.
End CellShader.

(** ** The static grid ([src/testDraw.js]) *)

Module TestDraw.
Local Open Scope Q_scope.

(** A [Float32Array] being filled: its elements and the running
    [offset].  A write past the end of a typed array is ignored. *)
Record Cursor : Type := mkCursor {
  vertices : list Q;
  offset : nat
}.

(** [vertices[offset++] = v] *)
Definition put (v : Q) (c : Cursor) : Cursor :=
  {| vertices := <[offset c := v]> (vertices c); offset := S (offset c) |}.

(** The cursor has written [pre] and has [k] zeros left before it. *)
Definition filled (pre : list Q) (k : nat) (c : Cursor) : Prop :=
  vertices c = pre ++ repeat 0 k /\ offset c = List.length pre.

(** The body of the first loop: the vertical line of index [i]. *)
Definition verticalBody (cellSize halfSize : Q) (i : Z) (c : Cursor) : Cursor :=
  let x := inject_Z i * cellSize - halfSize in
  put 0 (put halfSize (put x (put 0 (put (- halfSize) (put x c))))).

(** The body of the second loop: the horizontal line of index [i]. *)
Definition horizontalBody (cellSize halfSize : Q) (i : Z) (c : Cursor) : Cursor :=
  let y := inject_Z i * cellSize - halfSize in
  put 0 (put y (put halfSize (put 0 (put y (put (- halfSize) c))))).

(** What [createGridBuffers] returns: the content and the size in bytes
    of the vertex buffer, the size of the uniform buffer, and the number of
    vertices; with the final value of [offset]. *)
Record GridBuffers : Type := mkGridBuffers {
  vertexData : list Q;
  vertexBufferSize : Z;
  uniformBufferSize : Z;
  vertexCount : Z;
  finalOffset : nat
}.

(** [createGridBuffers(device, gridSize = 10, cellSize = 1)]; an omitted
    argument is [None]. *)
Definition createGridBuffers (gridSizeArg : option N) (cellSizeArg : option Q) : GridBuffers :=
  let gridSize := Z.of_N (default 10%N gridSizeArg) in
  let cellSize := default 1 cellSizeArg in
  let lineCount := ((gridSize + 1) * 2)%Z in
  let vertexCount := (lineCount * 2)%Z in
  let vertices := repeat 0 (Z.to_nat (vertexCount * 3)) in
  let halfSize := inject_Z gridSize * cellSize / 2 in
  let c0 := {| vertices := vertices; offset := 0 |} in
  let c1 := LineGrid.forRange 0 gridSize (verticalBody cellSize halfSize) c0 in
  let c2 := LineGrid.forRange 0 gridSize (horizontalBody cellSize halfSize) c1 in
  {| vertexData := TestDraw.vertices c2;
     vertexBufferSize := Z.of_nat (List.length (TestDraw.vertices c2)) * 4;
     uniformBufferSize := 16 * 4;
     vertexCount := vertexCount;
     finalOffset := offset c2 |}.

(** A vertex as the pipeline reads it: three floats. *)
Record Vec3 : Type := mkVec3 { px : Q; py : Q; pz : Q }.
Record Vec4 : Type := mkVec4 { cx : Q; cy : Q; cz : Q; cw : Q }.

Fixpoint points (vs : list Q) : list Vec3 :=
  match vs with
  | a :: b :: c :: rest => mkVec3 a b c :: points rest
  | _ => []
  end.

(** The two vertices a loop body writes. *)
Definition verticalVertices (cellSize halfSize : Q) (i : Z) : list Q :=
  let x := inject_Z i * cellSize - halfSize in
  [x; - halfSize; 0; x; halfSize; 0].
Definition horizontalVertices (cellSize halfSize : Q) (i : Z) : list Q :=
  let y := inject_Z i * cellSize - halfSize in
  [- halfSize; y; 0; halfSize; y; 0].

(** [renderGrid]: the orthographic matrix, sixteen numbers in
    column-major order. *)
Definition projectionMatrix (canvas : Canvas) : list Q :=
  let left := - widthQ canvas / 2 in
  let right := widthQ canvas / 2 in
  let bottom := - heightQ canvas / 2 in
  let top := heightQ canvas / 2 in
  let near := -1 in
  let far := 1 in
  [ 2 / (right - left); 0; 0; 0;
    0; 2 / (top - bottom); 0; 0;
    0; 0; 2 / (far - near); 0;
    - (right + left) / (right - left); - (top + bottom) / (top - bottom);
    - (far + near) / (far - near); 1 ].

(** The element of column [c] and row [r] of a column-major matrix. *)
Definition entry (m : list Q) (c r : nat) : Q := nth (c * 4 + r) m 0.

(** [mvp * v] *)
Definition mulMatVec (m : list Q) (v : Vec4) : Vec4 :=
  let row r :=
    entry m 0 r * cx v + entry m 1 r * cy v
    + entry m 2 r * cz v + entry m 3 r * cw v in
  {| cx := row 0%nat; cy := row 1%nat; cz := row 2%nat; cw := row 3%nat |}.

(** [vs_main]: [uniforms.mvp * vec4f(input.position, 1.0)]. *)
Definition vs_main (mvp : list Q) (position : Vec3) : Vec4 :=
  mulMatVec mvp {| cx := px position; cy := py position; cz := pz position; cw := 1.0 |}.
End TestDraw.

(** ** The triangle demos: canvas size, checkerboard, random numbers *)

Module Triangle.
Local Open Scope Q_scope.

(** The conversion of a number to the [unsigned long] of [canvas.width]:
    truncation towards zero, modulo 2^32.  (Values of 2^31 and more are
    replaced by the default size when the attribute is set; the properties
    below stay under that bound.) *)
Definition truncate (a : Q) : Z :=
  if JS.ltb a 0 then JS.ceil a else JS.floor a.

Definition toUnsignedLong (a : Q) : N := Z.to_N (truncate a mod 2 ^ 32).

(** The resize observer of [main] and [mainUseUniform]:
    [Math.max(1, Math.min(size, device.limits.maxTextureDimension2D))] in
    both directions. *)
Definition observeResize (maxTextureDimension2D : N) (inlineSize blockSize : Q) : Canvas :=
  let limit := inject_Z (Z.of_N maxTextureDimension2D) in
  {| width := toUnsignedLong (JS.max 1 (JS.min inlineSize limit));
     height := toUnsignedLong (JS.max 1 (JS.min blockSize limit)) |}.

(** [vec2u] of a [f32] component: truncation, saturating at the ends of
    the [u32] range. *)
Definition u32 (a : Q) : N :=
  if JS.ltb a 0 then 0%N
  else Z.to_N (Z.min (JS.floor a) (2 ^ 32 - 1)).

Definition red : list Q := [1; 0; 0; 1].
Definition cyan : list Q := [0; 1; 1; 1].

(** The checkerboard fragment shader:
    [let grid = vec2u(pixelPosition.xy) / 16;
     let checker = (grid.x + grid.y) % 2 == 1;
     return select(red, cyan, checker);] *)
Definition checker (pixelX pixelY : Q) : bool :=
  let gridX := (u32 pixelX / 16)%N in
  let gridY := (u32 pixelY / 16)%N in
  ((((gridX + gridY) mod 2 ^ 32) mod 2) =? 1)%N.

Definition fs (pixelX pixelY : Q) : list Q :=
  if checker pixelX pixelY then cyan else red.

(** [rand(min, max)]; [random] is the value [Math.random()] returns and
    an omitted argument is [None]. *)
Definition rand (random : Q) (minArg maxArg : option Q) : Q :=
  match minArg with
  | None => 0 + random * (1 - 0)
  | Some min =>
      match maxArg with
      | None => 0 + random * (min - 0)
      | Some max => min + random * (max - min)
      end
  end.
End Triangle.

(** ** The doubling compute pass of the main script *)

Module Compute.
Local Open Scope Q_scope.

(** One invocation of [computeSomething]:
    [let i = id.x; data[i] = data[i] * 2.0;]. *)
Definition computeSomething (id : nat) (data : list Q) : list Q :=
  match data !! id with
  | Some v => <[id := v * 2.0]> data
  | None => data
  end.

(** The invocations of a dispatch, run in the order [ids]. *)
Definition invoke (ids : list nat) (data : list Q) : list Q :=
  fold_left (fun d id => computeSomething id d) ids data.

(** [pass.dispatchWorkgroups(n)] with a workgroup of size one: the
    invocations 0 to [n - 1]. *)
Definition dispatchWorkgroups (n : nat) (data : list Q) : list Q :=
  invoke (seq 0 n) data.

(** The pass of [renderCompute] on an input: write it to the work buffer,
    dispatch one workgroup per element, copy the work buffer to the result
    buffer and read it back. *)
Definition doubling (input : list Q) : list Q :=
  let workBuffer := input in
  let workBuffer := dispatchWorkgroups (List.length input) workBuffer in
  let resultBuffer := workBuffer in
  resultBuffer.

(** [renderCompute]: the result it logs. *)
Definition renderCompute : list Q := doubling [1; 3; 5].
End Compute.

(** ** Start-up paths without a check *)

Module StartupUnchecked.
Import Startup.
Local Open Scope string_scope.

(** [initGrid2d] of both grid demos up to the device; [rest] is what
    follows.  A member access on [undefined] or [null] throws. *)
Definition initGrid2d (navigator : Navigator) (rest : Device -> Async unit) : Async unit :=
  emit (QuerySelector "canvas") ;;
  adapter <- match gpu navigator with
             | None => throw "TypeError"
             | Some g => requestAdapter g
             end ;;
  device <- match adapter with
            | None => throw "TypeError"
            | Some a => requestDevice a
            end ;;
  emit GetContext ;;
  emit GetPreferredCanvasFormat ;;
  emit Configure ;;
  rest device.

(** [initWebGPU] of [src/testDraw.js]. *)
Definition initWebGPU (navigator : Navigator) : Async Device :=
  match gpu navigator with
  | None => throw "WebGPU не поддерживается в вашем браузере"
  | Some g =>
      adapter <- requestAdapter g ;;
      device <- match adapter with
                | None => throw "TypeError"
                | Some a => requestDevice a
                end ;;
      emit (QuerySelector "#canvas") ;;
      emit GetContext ;;
      emit GetPreferredCanvasFormat ;;
      emit Configure ;;
      ret device
  end.

(** [main] of [src/testDraw.js]; [rest] is what follows [initWebGPU]. *)
Definition main (navigator : Navigator) (rest : Device -> Async unit) : Async unit :=
  device <- initWebGPU navigator ;;
  rest device.

(** Nothing reaches the user or the device. *)
Definition silent (m : Async unit) : Prop :=
  List.filter isAlert (effects m) = []
  /\ List.filter isConsoleError (effects m) = []
  /\ List.filter isSetup (effects m) = [].

Definition rejected (m : Async unit) : Prop :=
  exists error, completion m = Throw error.
End StartupUnchecked.

(** ** The line grid in double precision

    The same program with its numbers as IEEE-754 binary64 values, every
    operation rounded to the nearest double as JavaScript does.  Integral
    results ([Math.floor], loop indices) are read back as [Z]. *)

Module Double.
Import SpecFloat.

Definition number : Type := spec_float.

Definition prec : Z := 53.
Definition emax : Z := 1024.

(** The double of an integer (exact below 2^53). *)
Definition ofZ (z : Z) : number := binary_normalize prec emax z 0 false.

Definition add (a b : number) : number := SFadd prec emax a b.
Definition sub (a b : number) : number := SFsub prec emax a b.
Definition mul (a b : number) : number := SFmul prec emax a b.
Definition div (a b : number) : number := SFdiv prec emax a b.
Definition opp (a : number) : number := SFopp a.

Definition ltb (a b : number) : bool := SFltb a b.
Definition leb (a b : number) : bool := SFleb a b.
Definition eqb (a b : number) : bool := SFeqb a b.

(** A decimal literal [k / 10^d], such as [0.1] or [0.05]: the double
    nearest to it, which the correctly rounded quotient of the two exact
    integers is. *)
Definition decimal (k : Z) (d : Z) : number := div (ofZ k) (ofZ (10 ^ d)).

Definition isNaN (a : number) : bool :=
  match a with S754_nan => true | _ => false end.

(** [Math.max] and [Math.min]. *)
Definition max (a b : number) : number :=
  if isNaN a || isNaN b then S754_nan else if ltb a b then b else a.
Definition min (a b : number) : number :=
  if isNaN a || isNaN b then S754_nan else if ltb b a then b else a.

(** The largest integer not above a finite number. *)
Definition floorZ (a : number) : option Z :=
  match a with
  | S754_zero _ => Some 0%Z
  | S754_finite s m e =>
      let n := cond_Zopp s (Z.pos m) in
      Some (if (0 <=? e)%Z then n * 2 ^ e else n / 2 ^ (- e))%Z
  | _ => None
  end.

(** [Math.floor]; a number with a non-negative exponent is integral. *)
Definition floor (a : number) : number :=
  match a with
  | S754_finite s m e =>
      if (0 <=? e)%Z then a
      else ofZ (cond_Zopp s (Z.pos m) / 2 ^ (- e))
  | _ => a
  end.

(** [Math.ceil] *)
Definition ceil (a : number) : number := opp (floor (opp a)).

(** The integer a number is, when it is one. *)
Definition toZ (a : number) : option Z :=
  if eqb (floor a) a then floorZ a else None.

(** [a % b] on integral operands: the remainder has the sign of the
    dividend; a zero divisor yields NaN. *)
Definition rem (a b : number) : number :=
  match toZ a, toZ b with
  | Some x, Some y => if (y =? 0)%Z then S754_nan else ofZ (Z.rem x y)
  | _, _ => S754_nan
  end.
End Double.

Module LineGridDouble.
Import Double.

(** [const baseCellSize = 50.0; const sectionInterval = 5;] *)
Definition baseCellSize : number := ofZ 50.
Definition sectionInterval : number := ofZ 5.

Record Lines : Type := mkLines {
  majorLineVertices : list number;
  minorLineVertices : list number
}.

Record State : Type := mkState {
  canvasWidth : number;
  canvasHeight : number;
  currentZoom : number;
  panOffsetX : number;
  panOffsetY : number;
  isPanning : bool;
  lastMousePosX : number;
  lastMousePosY : number
}.

Definition emptyLines : Lines :=
  {| majorLineVertices := []; minorLineVertices := [] |}.

(** The loop body: push the four endpoint coordinates on the major or on
    the minor array, by [index % sectionInterval === 0]. *)
Definition pushLine (index : number) (lineEndpoints : list number) (ls : Lines) : Lines :=
  if eqb (rem index sectionInterval) (ofZ 0)
  then {| majorLineVertices := majorLineVertices ls ++ lineEndpoints;
          minorLineVertices := minorLineVertices ls |}
  else {| majorLineVertices := majorLineVertices ls;
          minorLineVertices := minorLineVertices ls ++ lineEndpoints |}.

(** [for (let l = lo; l <= hi; l++) body(l)]; [None] when the fuel runs
    out before the loop ends. *)
Fixpoint forLoop (fuel : nat) (l hi : number)
    (body : number -> Lines -> Lines) (ls : Lines) : option Lines :=
  match fuel with
  | O => None
  | S fuel' =>
      if leb l hi then forLoop fuel' (add l (ofZ 1)) hi body (body l ls)
      else Some ls
  end.

Definition effectiveCellSize (st : State) : number :=
  mul baseCellSize (currentZoom st).

Definition viewMinLogicalX (st : State) : number :=
  sub (div (opp (add (div (canvasWidth st) (ofZ 2)) (panOffsetX st)))
           (effectiveCellSize st)) (ofZ 5).
Definition viewMaxLogicalX (st : State) : number :=
  add (div (sub (canvasWidth st) (add (div (canvasWidth st) (ofZ 2)) (panOffsetX st)))
           (effectiveCellSize st)) (ofZ 5).
Definition viewMinLogicalY (st : State) : number :=
  sub (div (opp (add (div (canvasHeight st) (ofZ 2)) (panOffsetY st)))
           (effectiveCellSize st)) (ofZ 5).
Definition viewMaxLogicalY (st : State) : number :=
  add (div (sub (canvasHeight st) (add (div (canvasHeight st) (ofZ 2)) (panOffsetY st)))
           (effectiveCellSize st)) (ofZ 5).

(** [generateGridVertices] *)
Definition generateGridVertices (fuel : nat) (st : State) : option Lines :=
  if ltb (effectiveCellSize st) (ofZ 2) then Some emptyLines
  else
    match
      forLoop fuel (floor (viewMinLogicalX st)) (ceil (viewMaxLogicalX st))
        (fun lx => pushLine lx
           [lx; sub (viewMinLogicalY st) (ofZ 5);
            lx; add (viewMaxLogicalY st) (ofZ 5)])
        emptyLines
    with
    | None => None
    | Some ls1 =>
        forLoop fuel (floor (viewMinLogicalY st)) (ceil (viewMaxLogicalY st))
          (fun ly => pushLine ly
             [sub (viewMinLogicalX st) (ofZ 5); ly;
              add (viewMaxLogicalX st) (ofZ 5); ly])
          ls1
    end.

(** The wheel handler's [logicalMouseX], the pixel-to-logical mapping. *)
Definition pixelToLogicalX (st : State) (mouseX : number) : number :=
  div (sub mouseX (add (div (canvasWidth st) (ofZ 2)) (panOffsetX st)))
      (mul baseCellSize (currentZoom st)).
Definition pixelToLogicalY (st : State) (mouseY : number) : number :=
  div (sub mouseY (add (div (canvasHeight st) (ofZ 2)) (panOffsetY st)))
      (mul baseCellSize (currentZoom st)).

(** The wheel handler, at the mouse position [(mouseX, mouseY)] relative
    to the canvas. *)
Definition wheel (deltaY mouseX mouseY : number) (st : State) : State :=
  let zoomIntensity := decimal 1 1 in
  let scroll := if ltb deltaY (ofZ 0) then ofZ 1 else ofZ (-1) in
  let zoomFactor := add (ofZ 1) (mul scroll zoomIntensity) in
  let oldZoom := currentZoom st in
  let newZoom := max (decimal 5 2) (min (mul oldZoom zoomFactor) (ofZ 20)) in
  let logicalMouseX := pixelToLogicalX st mouseX in
  let logicalMouseY := pixelToLogicalY st mouseY in
  {| canvasWidth := canvasWidth st; canvasHeight := canvasHeight st;
     currentZoom := newZoom;
     panOffsetX := sub (sub mouseX (div (canvasWidth st) (ofZ 2)))
                       (mul logicalMouseX (mul baseCellSize newZoom));
     panOffsetY := sub (sub mouseY (div (canvasHeight st) (ofZ 2)))
                       (mul logicalMouseY (mul baseCellSize newZoom));
     isPanning := isPanning st;
     lastMousePosX := lastMousePosX st; lastMousePosY := lastMousePosY st |}.

(** The [mousedown] handler, for the left button. *)
Definition mousedown (clientX clientY : number) (st : State) : State :=
  {| canvasWidth := canvasWidth st; canvasHeight := canvasHeight st;
     currentZoom := currentZoom st;
     panOffsetX := panOffsetX st; panOffsetY := panOffsetY st;
     isPanning := true;
     lastMousePosX := clientX; lastMousePosY := clientY |}.

(** The [mousemove] handler. *)
Definition mousemove (clientX clientY : number) (st : State) : State :=
  if isPanning st
  then {| canvasWidth := canvasWidth st; canvasHeight := canvasHeight st;
          currentZoom := currentZoom st;
          panOffsetX := add (panOffsetX st) (sub clientX (lastMousePosX st));
          panOffsetY := add (panOffsetY st) (sub clientY (lastMousePosY st));
          isPanning := isPanning st;
          lastMousePosX := clientX; lastMousePosY := clientY |}
  else st.

(** The state of an 800 by 600 canvas at start-up. *)
Definition initialState : State :=
  {| canvasWidth := ofZ 800; canvasHeight := ofZ 600;
     currentZoom := ofZ 1; panOffsetX := ofZ 0; panOffsetY := ofZ 0;
     isPanning := false; lastMousePosX := ofZ 0; lastMousePosY := ofZ 0 |}.


(** The lines a vertex array draws, and the columns among them: the
    lines whose two abscissas are the same integer. *)
Fixpoint segments (vs : list number) : list (number * number * number * number) :=
  match vs with
  | a :: b :: c :: d :: rest => (a, b, c, d) :: segments rest
  | _ => []
  end.





End LineGridDouble.

(** * Properties *)

(** ** Number primitives *)

Module JSFacts.
Local Open Scope Q_scope.

Lemma ltb_lt (a b : Q) : JS.ltb a b = true <-> a < b.
Proof.
  unfold JS.ltb. rewrite negb_true_iff, <- not_true_iff_false, Qle_bool_iff.
  split; [apply Qnot_le_lt | apply Qlt_not_le].
Qed.

Lemma ltb_ge (a b : Q) : JS.ltb a b = false <-> b <= a.
Proof.
  unfold JS.ltb. rewrite negb_false_iff. apply Qle_bool_iff.
Qed.

Lemma max_lower (a b : Q) : a <= JS.max a b.
Proof.
  unfold JS.max, JS.leb. destruct (Qle_bool a b) eqn:E.
  - now apply Qle_bool_iff.
  - apply Qle_refl.
Qed.

Lemma max_le (a b c : Q) : a <= c -> b <= c -> JS.max a b <= c.
Proof. unfold JS.max. now destruct (JS.leb a b). Qed.

Lemma min_upper (a b : Q) : JS.min a b <= b.
Proof.
  unfold JS.min, JS.leb. destruct (Qle_bool a b) eqn:E.
  - now apply Qle_bool_iff.
  - apply Qle_refl.
Qed.

(** [Math.max(lo, Math.min(v, hi))] lands in [[lo, hi]] whenever the
    bounds are ordered. *)
Lemma clamp_range (lo hi v : Q) :
  lo <= hi -> lo <= JS.max lo (JS.min v hi) <= hi.
Proof.
  intros Hb. split.
  - apply max_lower.
  - apply max_le; [exact Hb | apply min_upper].
Qed.

(** The floor is the largest integer below a number, the ceiling the
    smallest one above it. *)
Lemma floor_spec (q : Q) (z : Z) : (z <= JS.floor q)%Z <-> inject_Z z <= q.
Proof.
  unfold JS.floor. split; intros H.
  - apply Qle_trans with (inject_Z (Qfloor q)).
    + now rewrite <- Zle_Qle.
    + apply Qfloor_le.
  - apply Z.lt_succ_r. rewrite <- Z.add_1_r. rewrite Zlt_Qlt.
    apply Qle_lt_trans with q; [exact H | apply Qlt_floor].
Qed.

Lemma ceil_spec (q : Q) (z : Z) : (JS.ceil q <= z)%Z <-> q <= inject_Z z.
Proof.
  unfold JS.ceil. split; intros H.
  - apply Qle_trans with (inject_Z (Qceiling q)).
    + apply Qle_ceiling.
    + now rewrite <- Zle_Qle.
  - apply Z.lt_pred_le. rewrite <- Z.sub_1_r. rewrite Zlt_Qlt.
    apply Qlt_le_trans with q; [apply Qceiling_lt | exact H].
Qed.

Lemma floor_sub_Z (q : Q) (k : Z) :
  JS.floor (q - inject_Z k) = (JS.floor q - k)%Z.
Proof.
  assert (H1 := proj1 (floor_spec (q - inject_Z k) _) (Z.le_refl _)).
  assert (H2 := proj1 (floor_spec q _) (Z.le_refl _)).
  assert (L : (JS.floor (q - inject_Z k) + k <= JS.floor q)%Z).
  { apply floor_spec. rewrite inject_Z_plus. lra. }
  assert (R : (JS.floor q - k <= JS.floor (q - inject_Z k))%Z).
  { apply floor_spec. unfold Z.sub. rewrite inject_Z_plus, inject_Z_opp. lra. }
  lia.
Qed.

Lemma ceil_add_Z (q : Q) (k : Z) :
  JS.ceil (q + inject_Z k) = (JS.ceil q + k)%Z.
Proof.
  assert (H1 := proj1 (ceil_spec (q + inject_Z k) _) (Z.le_refl _)).
  assert (H2 := proj1 (ceil_spec q _) (Z.le_refl _)).
  assert (L : (JS.ceil (q + inject_Z k) <= JS.ceil q + k)%Z).
  { apply ceil_spec. rewrite inject_Z_plus. lra. }
  assert (R : (JS.ceil q <= JS.ceil (q + inject_Z k) - k)%Z).
  { apply ceil_spec. unfold Z.sub. rewrite inject_Z_plus, inject_Z_opp. lra. }
  lia.
Qed.

Lemma floor_le (q : Q) (z : Z) : q <= inject_Z z -> (JS.floor q <= z)%Z.
Proof.
  intros H. rewrite Zle_Qle.
  apply Qle_trans with q; [apply Qfloor_le | exact H].
Qed.

Lemma le_ceil (q : Q) (z : Z) : inject_Z z <= q -> (z <= JS.ceil q)%Z.
Proof.
  intros H. rewrite Zle_Qle.
  apply Qle_trans with q; [exact H | apply Qle_ceiling].
Qed.

Lemma mult_nonzero (a b : Q) : ~ a * b == 0 -> ~ b == 0 /\ ~ a == 0.
Proof.
  intros H. split; intros E; apply H; rewrite E; ring.
Qed.

(** The remainder test of the program agrees with the mathematical
    modulo, also on negative dividends. *)
Lemma rem_isZero (a b : Z) :
  b <> 0%Z -> JS.isZero (JS.rem a b) = true <-> (a mod b = 0)%Z.
Proof.
  intros Hb. unfold JS.rem, JS.isZero.
  destruct (Z.eqb_spec b 0) as [E | _]; [contradiction |].
  rewrite Z.eqb_eq.
  rewrite Z.rem_divide, Z.mod_divide by exact Hb. reflexivity.
Qed.
End JSFacts.

(** ** The line grid *)

Module LineGridFacts.
Import LineGrid.
Local Open Scope Q_scope.

Section Camera.
Context (cfg : GridConfig).

(** *** Coordinate mapping *)

(** C1. Mapping a logical point to pixels with the vertex shader's
    formula and back with the wheel handler's formula returns the
    point, for every camera and canvas whose effective cell size
    [baseCellSize * zoom] is not zero. *)
Theorem pixelToLogical_logicalToPixel (st : State) (L : Vec2) :
  ~ baseCellSize cfg * currentZoom st == 0 ->
  Vec2_eq (pixelToLogical cfg st (logicalToPixel cfg st L)) L.
Proof.
  intros Hs. unfold Vec2_eq, pixelToLogical, logicalToPixel, pixel_pos,
    frameUniforms, effectiveCellSize, gridOriginX, gridOriginY.
  cbn [x y scale_factor_xy grid_origin_pixels_xy].
  split; field; apply JSFacts.mult_nonzero, Hs.
Qed.

(** The other composition: pixels to logical and back. *)
Lemma logicalToPixel_pixelToLogical (st : State) (P : Vec2) :
  ~ baseCellSize cfg * currentZoom st == 0 ->
  Vec2_eq (logicalToPixel cfg st (pixelToLogical cfg st P)) P.
Proof.
  intros Hs. unfold Vec2_eq, pixelToLogical, logicalToPixel, pixel_pos,
    frameUniforms, effectiveCellSize, gridOriginX, gridOriginY.
  cbn [x y scale_factor_xy grid_origin_pixels_xy].
  split; field; apply JSFacts.mult_nonzero, Hs.
Qed.

(** *** The wheel handler *)

Lemma updateVertexBuffers_camera (st : State) :
  canvas (updateVertexBuffers cfg st) = canvas st
  /\ currentZoom (updateVertexBuffers cfg st) = currentZoom st
  /\ panOffset (updateVertexBuffers cfg st) = panOffset st.
Proof. repeat split. Qed.

(** C10. After a wheel event the logical point that was under the
    cursor is still under the cursor: mapped to pixels with the new
    zoom and pan, it lands on the mouse position. *)
Theorem wheel_anchored_at_cursor (rect : Rect) (event : WheelEvent) (st : State) :
  ~ baseCellSize cfg * currentZoom st == 0 ->
  let M := {| x := wheelClientX event - left rect;
              y := wheelClientY event - top rect |} in
  Vec2_eq (logicalToPixel cfg (wheel cfg rect event st) (pixelToLogical cfg st M)) M.
Proof.
  intros Hs M. unfold Vec2_eq, wheel, logicalToPixel, pixel_pos,
    frameUniforms, effectiveCellSize, gridOriginX, gridOriginY.
  cbn [x y scale_factor_xy grid_origin_pixels_xy updateVertexBuffers
       wheelCamera canvas currentZoom panOffset].
  fold M. generalize (pixelToLogical cfg st M). intros logicalMouse.
  subst M; cbn [x y]; split; field.
Qed.

Lemma zoomStep_range (event : WheelEvent) (zoom : Q) :
  0.05 <= zoomStep event zoom <= 20.0.
Proof. unfold zoomStep. apply JSFacts.clamp_range. lra. Qed.

Lemma wheel_zoom (rect : Rect) (event : WheelEvent) (st : State) :
  currentZoom (wheel cfg rect event st) = zoomStep event (currentZoom st).
Proof. reflexivity. Qed.

(** Only the wheel handler writes [currentZoom]. *)
Lemma step_zoomInRange (ev : Event) (st : State) :
  zoomInRange st -> zoomInRange (step cfg ev st).
Proof.
  intros H. destruct ev as [rect event | event | event | | | w h]; cbn [step].
  - unfold zoomInRange. rewrite wheel_zoom. apply zoomStep_range.
  - unfold mousedown. now destruct (button event =? 0)%Z.
  - unfold mousemove. now destruct (isPanning st).
  - exact H.
  - exact H.
  - unfold resize.
    now destruct (negb _ || negb _)%bool.
Qed.

Lemma run_zoomInRange (evs : list Event) (st : State) :
  zoomInRange st -> zoomInRange (run cfg evs st).
Proof.
  revert st. induction evs as [| ev evs IH]; intros st H; cbn.
  - exact H.
  - apply IH, step_zoomInRange, H.
Qed.
End Camera.

(** *** The loops of [generateGridVertices] *)

Lemma segments_flatten (l : list Segment) : segments (flatten l) = l.
Proof.
  induction l as [| [a b c d] l IH]; [reflexivity |].
  unfold flatten in *. cbn. now rewrite IH.
Qed.

Lemma flatten_app (l1 l2 : list Segment) :
  flatten (l1 ++ l2) = flatten l1 ++ flatten l2.
Proof. unfold flatten. now rewrite map_app, concat_app. Qed.

Lemma flatten_cons (s : Segment) (l : list Segment) :
  flatten (s :: l) = lineEndpoints s ++ flatten l.
Proof. reflexivity. Qed.

Lemma In_zrange (n : nat) (lo i : Z) :
  In i (zrange n lo) <-> (lo <= i < lo + Z.of_nat n)%Z.
Proof.
  revert lo. induction n as [| n IH]; intros lo; cbn [zrange In].
  - lia.
  - rewrite IH. lia.
Qed.

Lemma In_zrange_bounds (lo hi i : Z) :
  In i (zrange (Z.to_nat (hi - lo + 1)) lo) <-> (lo <= i <= hi)%Z.
Proof. rewrite In_zrange. lia. Qed.

Section Loops.
Context (cfg : GridConfig).

(** A loop of [pushLine] appends, to each array, the lines of its
    class in the order of the indices. *)
Lemma forLoop_pushLine (mk : Z -> Segment) (n : nat) (lo : Z) (ls : Lines) :
  let out := forLoop n lo (fun i => pushLine cfg i (mk i)) ls in
  majorLineVertices out
    = majorLineVertices ls
      ++ flatten (map mk (List.filter (isMajor cfg) (zrange n lo)))
  /\ minorLineVertices out
    = minorLineVertices ls
      ++ flatten (map mk (List.filter (fun i => negb (isMajor cfg i)) (zrange n lo))).
Proof.
  revert lo ls. induction n as [| n IH]; intros lo ls; cbn [forLoop zrange List.filter].
  - cbn. now rewrite !app_nil_r.
  - destruct (IH (lo + 1)%Z (pushLine cfg lo (mk lo) ls)) as [IHM IHm].
    cbn zeta in *. rewrite IHM, IHm. unfold pushLine.
    destruct (isMajor cfg lo); cbn [negb map majorLineVertices minorLineVertices];
      rewrite ?flatten_cons, ?app_assoc; split; reflexivity.
Qed.

Lemma generateGridVertices_empty (st : State) :
  effectiveCellSize cfg st < 2 -> generateGridVertices cfg st = emptyLines.
Proof.
  intros H. unfold generateGridVertices.
  now rewrite (proj2 (JSFacts.ltb_lt _ _) H).
Qed.

(** Above the threshold, the arrays hold the vertical lines of the
    visible columns followed by the horizontal lines of the visible
    rows, split by class. *)
Lemma generateGridVertices_lines (st : State) :
  2 <= effectiveCellSize cfg st ->
  segments (majorLineVertices (generateGridVertices cfg st))
    = map (verticalLine cfg st) (List.filter (isMajor cfg) (visibleX cfg st))
      ++ map (horizontalLine cfg st) (List.filter (isMajor cfg) (visibleY cfg st))
  /\ segments (minorLineVertices (generateGridVertices cfg st))
    = map (verticalLine cfg st)
        (List.filter (fun i => negb (isMajor cfg i)) (visibleX cfg st))
      ++ map (horizontalLine cfg st)
           (List.filter (fun i => negb (isMajor cfg i)) (visibleY cfg st)).
Proof.
  intros H. unfold generateGridVertices, forRange.
  rewrite (proj2 (JSFacts.ltb_ge _ _) H).
  match goal with
  | |- context [forLoop ?n ?lo (fun ly => pushLine cfg ly (horizontalLine cfg st ly)) ?ls] =>
      destruct (forLoop_pushLine (horizontalLine cfg st) n lo ls) as [HM Hm]
  end.
  cbn zeta in HM, Hm. rewrite HM, Hm. clear HM Hm.
  match goal with
  | |- context [forLoop ?n ?lo (fun lx => pushLine cfg lx (verticalLine cfg st lx)) ?ls] =>
      destruct (forLoop_pushLine (verticalLine cfg st) n lo ls) as [VM Vm]
  end.
  cbn zeta in VM, Vm. rewrite VM, Vm. clear VM Vm.
  cbn [emptyLines majorLineVertices minorLineVertices app].
  rewrite <- !flatten_app, !segments_flatten.
  split; reflexivity.
Qed.
End Loops.

(** *** The visible range *)

Lemma div_le_mono (a b c : Q) : 0 < c -> a <= b -> a / c <= b / c.
Proof.
  intros Hc Hab. apply Qle_shift_div_l; [exact Hc |].
  assert (E : a / c * c == a) by (field; lra).
  rewrite E. exact Hab.
Qed.

Lemma widthQ_nonneg (c : Canvas) : 0 <= widthQ c.
Proof.
  unfold widthQ. change 0 with (inject_Z 0). rewrite <- Zle_Qle. lia.
Qed.

Lemma heightQ_nonneg (c : Canvas) : 0 <= heightQ c.
Proof.
  unfold heightQ. change 0 with (inject_Z 0). rewrite <- Zle_Qle. lia.
Qed.

Lemma inject_Z_eq (a b : Z) : inject_Z a == inject_Z b -> a = b.
Proof. apply inject_Z_injective. Qed.

Section Range.
Context (cfg : GridConfig) (st : State).
Hypothesis threshold : 2 <= baseCellSize cfg * currentZoom st.

Let minLogical : Vec2 := pixelToLogical cfg st topLeft.
Let maxLogical : Vec2 := pixelToLogical cfg st (bottomRight st).

Lemma viewMinLogicalX_margin :
  viewMinLogicalX cfg st == x minLogical - inject_Z margin.
Proof.
  unfold viewMinLogicalX, gridOriginX, effectiveCellSize, minLogical,
    pixelToLogical, topLeft, margin. cbn [x y].
  field. apply JSFacts.mult_nonzero. lra.
Qed.

Lemma viewMaxLogicalX_margin :
  viewMaxLogicalX cfg st == x maxLogical + inject_Z margin.
Proof.
  unfold viewMaxLogicalX, gridOriginX, effectiveCellSize, maxLogical,
    pixelToLogical, bottomRight, margin. cbn [x y].
  field. apply JSFacts.mult_nonzero. lra.
Qed.

Lemma viewMinLogicalY_margin :
  viewMinLogicalY cfg st == y minLogical - inject_Z margin.
Proof.
  unfold viewMinLogicalY, gridOriginY, effectiveCellSize, minLogical,
    pixelToLogical, topLeft, margin. cbn [x y].
  field. apply JSFacts.mult_nonzero. lra.
Qed.

Lemma viewMaxLogicalY_margin :
  viewMaxLogicalY cfg st == y maxLogical + inject_Z margin.
Proof.
  unfold viewMaxLogicalY, gridOriginY, effectiveCellSize, maxLogical,
    pixelToLogical, bottomRight, margin. cbn [x y].
  field. apply JSFacts.mult_nonzero. lra.
Qed.

(** The left edge of the viewport is not to the right of its right
    edge, in logical coordinates too; likewise top and bottom. *)
Lemma logical_order :
  x minLogical <= x maxLogical /\ y minLogical <= y maxLogical.
Proof.
  unfold minLogical, maxLogical, pixelToLogical, topLeft, bottomRight.
  cbn [x y]. split; apply div_le_mono; try lra.
  - generalize (widthQ_nonneg (canvas st)). lra.
  - generalize (heightQ_nonneg (canvas st)). lra.
Qed.

Lemma In_visibleX (i : Z) :
  In i (visibleX cfg st)
  <-> (JS.floor (x minLogical) - margin <= i
       <= JS.ceil (x maxLogical) + margin)%Z.
Proof.
  unfold visibleX. cbn zeta. rewrite In_zrange_bounds.
  unfold JS.floor, JS.ceil.
  rewrite (Qfloor_comp _ _ viewMinLogicalX_margin).
  rewrite (Qceiling_comp _ _ viewMaxLogicalX_margin).
  fold (JS.floor (x minLogical - inject_Z margin)).
  fold (JS.ceil (x maxLogical + inject_Z margin)).
  rewrite JSFacts.floor_sub_Z, JSFacts.ceil_add_Z. reflexivity.
Qed.

Lemma In_visibleY (j : Z) :
  In j (visibleY cfg st)
  <-> (JS.floor (y minLogical) - margin <= j
       <= JS.ceil (y maxLogical) + margin)%Z.
Proof.
  unfold visibleY. cbn zeta. rewrite In_zrange_bounds.
  unfold JS.floor, JS.ceil.
  rewrite (Qfloor_comp _ _ viewMinLogicalY_margin).
  rewrite (Qceiling_comp _ _ viewMaxLogicalY_margin).
  fold (JS.floor (y minLogical - inject_Z margin)).
  fold (JS.ceil (y maxLogical + inject_Z margin)).
  rewrite JSFacts.floor_sub_Z, JSFacts.ceil_add_Z. reflexivity.
Qed.

(** Every emitted line is the vertical line of a visible column or the
    horizontal line of a visible row, and all of those are emitted. *)
Lemma In_emitted (s : Segment) :
  In s (emitted (generateGridVertices cfg st))
  <-> (exists lx, In lx (visibleX cfg st) /\ s = verticalLine cfg st lx)
      \/ (exists ly, In ly (visibleY cfg st) /\ s = horizontalLine cfg st ly).
Proof.
  unfold emitted.
  destruct (generateGridVertices_lines cfg st threshold) as [HM Hm].
  rewrite HM, Hm, !in_app_iff, !in_map_iff.
  split.
  - intros [[H | H] | [H | H]]; destruct H as (i & <- & Hi);
      apply filter_In in Hi; destruct Hi as [Hi _]; eauto.
  - intros [(i & Hi & ->) | (i & Hi & ->)];
      destruct (isMajor cfg i) eqn:E.
    + left; left. exists i. split; [reflexivity |].
      apply filter_In. now split.
    + right; left. exists i. split; [reflexivity |].
      apply filter_In. split; [exact Hi | now rewrite E].
    + left; right. exists i. split; [reflexivity |].
      apply filter_In. now split.
    + right; right. exists i. split; [reflexivity |].
      apply filter_In. split; [exact Hi | now rewrite E].
Qed.

(** A horizontal line is never degenerate: its two abscissas differ,
    so it is not mistaken for a vertical one, and conversely. *)
Lemma horizontalLine_wide (ly : Z) :
  x0 (horizontalLine cfg st ly) < x1 (horizontalLine cfg st ly).
Proof.
  cbn [horizontalLine x0 x1].
  rewrite viewMinLogicalX_margin, viewMaxLogicalX_margin.
  destruct logical_order as [Hx _]. unfold margin.
  change (inject_Z 5) with 5. lra.
Qed.

Lemma verticalLine_tall (lx : Z) :
  y0 (verticalLine cfg st lx) < y1 (verticalLine cfg st lx).
Proof.
  cbn [verticalLine y0 y1].
  rewrite viewMinLogicalY_margin, viewMaxLogicalY_margin.
  destruct logical_order as [_ Hy]. unfold margin.
  change (inject_Z 5) with 5. lra.
Qed.

Lemma emittedVertical_visibleX (i : Z) :
  emittedVertical (generateGridVertices cfg st) i <-> In i (visibleX cfg st).
Proof.
  unfold emittedVertical. split.
  - intros (s & Hs & E0 & E1). apply In_emitted in Hs.
    destruct Hs as [(lx & Hlx & ->) | (ly & Hly & ->)].
    + cbn [verticalLine x0] in E0. apply inject_Z_eq in E0. now subst lx.
    + generalize (horizontalLine_wide ly). rewrite E0, E1.
      intros C. now apply Qlt_irrefl in C.
  - intros Hi. exists (verticalLine cfg st i). split.
    + apply In_emitted. left. now exists i.
    + split; reflexivity.
Qed.

Lemma emittedHorizontal_visibleY (j : Z) :
  emittedHorizontal (generateGridVertices cfg st) j <-> In j (visibleY cfg st).
Proof.
  unfold emittedHorizontal. split.
  - intros (s & Hs & E0 & E1). apply In_emitted in Hs.
    destruct Hs as [(lx & Hlx & ->) | (ly & Hly & ->)].
    + generalize (verticalLine_tall lx). rewrite E0, E1.
      intros C. now apply Qlt_irrefl in C.
    + cbn [horizontalLine y0] in E0. apply inject_Z_eq in E0. now subst ly.
  - intros Hj. exists (horizontalLine cfg st j). split.
    + apply In_emitted. right. now exists j.
    + split; reflexivity.
Qed.
End Range.

(** *** Classification of the emitted lines *)

Section Classes.
Context (cfg : GridConfig) (st : State).
Hypothesis threshold : 2 <= baseCellSize cfg * currentZoom st.

Lemma verticalLine_inj (a b : Z) :
  verticalLine cfg st a = verticalLine cfg st b -> a = b.
Proof.
  intros E. apply (f_equal x0) in E. cbn [verticalLine x0] in E.
  apply inject_Z_eq. now rewrite E.
Qed.

Lemma horizontalLine_inj (a b : Z) :
  horizontalLine cfg st a = horizontalLine cfg st b -> a = b.
Proof.
  intros E. apply (f_equal y0) in E. cbn [horizontalLine y0] in E.
  apply inject_Z_eq. now rewrite E.
Qed.

Lemma horizontalLine_not_vertical (ly lx : Z) :
  horizontalLine cfg st ly <> verticalLine cfg st lx.
Proof.
  intros E. generalize (horizontalLine_wide cfg st threshold ly).
  rewrite E. cbn [verticalLine x0 x1]. apply Qlt_irrefl.
Qed.

(** Membership of a line in an array that holds the columns and rows
    selected by [p]. *)
Lemma In_vertical_class (p : Z -> bool) (xs ys : list Z) (lx : Z) :
  In (verticalLine cfg st lx)
     (map (verticalLine cfg st) (List.filter p xs)
      ++ map (horizontalLine cfg st) (List.filter p ys))
  <-> In lx xs /\ p lx = true.
Proof.
  rewrite in_app_iff, !in_map_iff. split.
  - intros [(a & E & Ha) | (a & E & _)].
    + apply verticalLine_inj in E. subst a. now apply filter_In in Ha.
    + now apply horizontalLine_not_vertical in E.
  - intros H. left. exists lx. split; [reflexivity | now apply filter_In].
Qed.

Lemma In_horizontal_class (p : Z -> bool) (xs ys : list Z) (ly : Z) :
  In (horizontalLine cfg st ly)
     (map (verticalLine cfg st) (List.filter p xs)
      ++ map (horizontalLine cfg st) (List.filter p ys))
  <-> In ly ys /\ p ly = true.
Proof.
  rewrite in_app_iff, !in_map_iff. split.
  - intros [(a & E & _) | (a & E & Ha)].
    + symmetry in E. now apply horizontalLine_not_vertical in E.
    + apply horizontalLine_inj in E. subst a. now apply filter_In in Ha.
  - intros H. right. exists ly. split; [reflexivity | now apply filter_In].
Qed.
End Classes.

(** *** Coverage of the viewport *)

Section Coverage.
Context (cfg : GridConfig) (st : State).
Hypothesis threshold : 2 <= baseCellSize cfg * currentZoom st.

Let ls : Lines := generateGridVertices cfg st.
Let minLogical : Vec2 := pixelToLogical cfg st topLeft.
Let maxLogical : Vec2 := pixelToLogical cfg st (bottomRight st).

(** A column whose pixel abscissa is on the canvas lies between the
    logical abscissas of the two edges; likewise for a row. *)
Lemma on_canvas_x (lx : Z) (ly : Q) :
  0 <= x (logicalToPixel cfg st {| x := inject_Z lx; y := ly |})
    <= widthQ (canvas st) ->
  x minLogical <= inject_Z lx <= x maxLogical.
Proof.
  unfold logicalToPixel, pixel_pos, frameUniforms, effectiveCellSize,
    gridOriginX, minLogical, maxLogical, pixelToLogical, topLeft, bottomRight.
  cbn [x y scale_factor_xy grid_origin_pixels_xy].
  intros [H0 HW]. split.
  - apply Qle_shift_div_r; lra.
  - apply Qle_shift_div_l; lra.
Qed.

Lemma on_canvas_y (lx : Q) (ly : Z) :
  0 <= y (logicalToPixel cfg st {| x := lx; y := inject_Z ly |})
    <= heightQ (canvas st) ->
  y minLogical <= inject_Z ly <= y maxLogical.
Proof.
  unfold logicalToPixel, pixel_pos, frameUniforms, effectiveCellSize,
    gridOriginY, minLogical, maxLogical, pixelToLogical, topLeft, bottomRight.
  cbn [x y scale_factor_xy grid_origin_pixels_xy].
  intros [H0 HH]. split.
  - apply Qle_shift_div_r; lra.
  - apply Qle_shift_div_l; lra.
Qed.

(** Every column within the margin of the visible logical range is
    drawn; likewise every row. *)
Lemma margin_columns (i : Z) :
  x minLogical - 5 <= inject_Z i <= x maxLogical + 5 ->
  emittedVertical ls i.
Proof.
  intros [Hlo Hhi]. apply (emittedVertical_visibleX cfg st threshold).
  apply (In_visibleX cfg st threshold). unfold margin.
  assert (L : (JS.floor (x minLogical) <= i + 5)%Z).
  { apply JSFacts.floor_le. rewrite inject_Z_plus.
    change (inject_Z 5) with 5. lra. }
  assert (R : (i - 5 <= JS.ceil (x maxLogical))%Z).
  { apply JSFacts.le_ceil. unfold Z.sub. rewrite inject_Z_plus.
    change (inject_Z (- (5))) with (- (5)). lra. }
  unfold minLogical, maxLogical in L, R. lia.
Qed.

Lemma margin_rows (j : Z) :
  y minLogical - 5 <= inject_Z j <= y maxLogical + 5 ->
  emittedHorizontal ls j.
Proof.
  intros [Hlo Hhi]. apply (emittedHorizontal_visibleY cfg st threshold).
  apply (In_visibleY cfg st threshold). unfold margin.
  assert (L : (JS.floor (y minLogical) <= j + 5)%Z).
  { apply JSFacts.floor_le. rewrite inject_Z_plus.
    change (inject_Z 5) with 5. lra. }
  assert (R : (j - 5 <= JS.ceil (y maxLogical))%Z).
  { apply JSFacts.le_ceil. unfold Z.sub. rewrite inject_Z_plus.
    change (inject_Z (- (5))) with (- (5)). lra. }
  unfold minLogical, maxLogical in L, R. lia.
Qed.

(** Every emitted line is vertical and spans the visible rows plus the
    margin, or horizontal and spans the visible columns plus the
    margin. *)
Lemma emitted_spans (s : Segment) :
  In s (emitted ls) ->
  (x0 s == x1 s /\ y0 s <= y minLogical - 5 /\ y maxLogical + 5 <= y1 s)
  \/ (y0 s == y1 s /\ x0 s <= x minLogical - 5 /\ x maxLogical + 5 <= x1 s).
Proof.
  intros Hs. apply (In_emitted cfg st threshold) in Hs.
  destruct Hs as [(lx & _ & ->) | (ly & _ & ->)]; [left | right];
    cbn [verticalLine horizontalLine x0 x1 y0 y1].
  - rewrite (viewMinLogicalY_margin cfg st threshold),
      (viewMaxLogicalY_margin cfg st threshold).
    unfold margin. change (inject_Z 5) with 5.
    fold minLogical maxLogical. repeat split; lra.
  - rewrite (viewMinLogicalX_margin cfg st threshold),
      (viewMaxLogicalX_margin cfg st threshold).
    unfold margin. change (inject_Z 5) with 5.
    fold minLogical maxLogical. repeat split; lra.
Qed.
End Coverage.

(** *** The claims about line generation *)

(** C2. At or above the threshold the generated lines cover the
    viewport and the margin of five cells on every edge: every column
    whose pixel abscissa lies in [0, width] is drawn, every row whose
    pixel ordinate lies in [0, height] is drawn, so are the columns and
    rows up to five cells beyond the edges, and every line drawn spans
    the visible range of the other axis extended by the margin.  The
    canvas may have any size. *)
Theorem lines_cover_viewport (cfg : GridConfig) (st : State) :
  2 <= baseCellSize cfg * currentZoom st ->
  let ls := generateGridVertices cfg st in
  let minLogical := pixelToLogical cfg st topLeft in
  let maxLogical := pixelToLogical cfg st (bottomRight st) in
  (forall (lx : Z) (ly : Q),
      0 <= x (logicalToPixel cfg st {| x := inject_Z lx; y := ly |})
        <= widthQ (canvas st) ->
      emittedVertical ls lx)
  /\ (forall (lx : Q) (ly : Z),
      0 <= y (logicalToPixel cfg st {| x := lx; y := inject_Z ly |})
        <= heightQ (canvas st) ->
      emittedHorizontal ls ly)
  /\ (forall i : Z,
      x minLogical - 5 <= inject_Z i <= x maxLogical + 5 ->
      emittedVertical ls i)
  /\ (forall j : Z,
      y minLogical - 5 <= inject_Z j <= y maxLogical + 5 ->
      emittedHorizontal ls j)
  /\ (forall s : Segment,
      In s (emitted ls) ->
      (x0 s == x1 s /\ y0 s <= y minLogical - 5 /\ y maxLogical + 5 <= y1 s)
      \/ (y0 s == y1 s /\ x0 s <= x minLogical - 5 /\ x maxLogical + 5 <= x1 s)).
Proof.
  intros H ls minLogical maxLogical. repeat split.
  - intros lx ly Hp. apply (margin_columns cfg st H).
    destruct (on_canvas_x cfg st H lx ly Hp). split; lra.
  - intros lx ly Hp. apply (margin_rows cfg st H).
    destruct (on_canvas_y cfg st H lx ly Hp). split; lra.
  - apply (margin_columns cfg st H).
  - apply (margin_rows cfg st H).
  - apply (emitted_spans cfg st H).
Qed.

(** C3. Below the threshold of two pixels per cell the generator leaves
    both vertex arrays empty; it returns normally, and the buffers are
    rebuilt from the empty arrays. *)
Theorem degenerate_zoom_no_lines (cfg : GridConfig) (st : State) :
  baseCellSize cfg * currentZoom st < 2 ->
  majorLineVertices (generateGridVertices cfg st) = []
  /\ minorLineVertices (generateGridVertices cfg st) = []
  /\ emitted (lines (updateVertexBuffers cfg st)) = [].
Proof.
  intros H. cbn [updateVertexBuffers lines].
  rewrite (generateGridVertices_empty cfg st H). repeat split.
Qed.

(** C4. With a non-zero section interval, a line is major exactly when
    its index is a multiple of the interval under the mathematical
    modulo, negative indices included: the remainder test agrees with
    it, and at or above the threshold every visible column and row sits
    in the major array when its index is such a multiple and in the minor
    array otherwise.  With the interval 5 of the demo, -10, -5, 0, 5 and
    10 are major and -3, -1, 1, 3 and 7 are minor. *)
Theorem major_iff_multiple (cfg : GridConfig) (st : State) :
  sectionInterval cfg <> 0%Z ->
  2 <= baseCellSize cfg * currentZoom st ->
  let ls := generateGridVertices cfg st in
  let n := sectionInterval cfg in
  (forall index : Z, isMajor cfg index = true <-> (index mod n = 0)%Z)
  /\ (forall lx : Z, In lx (visibleX cfg st) ->
       (In (verticalLine cfg st lx) (segments (majorLineVertices ls))
        <-> (lx mod n = 0)%Z)
       /\ (In (verticalLine cfg st lx) (segments (minorLineVertices ls))
           <-> (lx mod n <> 0)%Z))
  /\ (forall ly : Z, In ly (visibleY cfg st) ->
       (In (horizontalLine cfg st ly) (segments (majorLineVertices ls))
        <-> (ly mod n = 0)%Z)
       /\ (In (horizontalLine cfg st ly) (segments (minorLineVertices ls))
           <-> (ly mod n <> 0)%Z))
  /\ (sectionInterval gridConfig = 5%Z
      /\ forallb (isMajor gridConfig) [-10; -5; 0; 5; 10]%Z = true
      /\ forallb (fun i => negb (isMajor gridConfig i)) [-3; -1; 1; 3; 7]%Z = true).
Proof.
  intros Hn H ls n.
  assert (M : forall index : Z, isMajor cfg index = true <-> (index mod n = 0)%Z).
  { intros index. apply JSFacts.rem_isZero, Hn. }
  assert (m : forall index : Z,
             negb (isMajor cfg index) = true <-> (index mod n <> 0)%Z).
  { intros index. rewrite negb_true_iff, <- not_true_iff_false, M. reflexivity. }
  destruct (generateGridVertices_lines cfg st H) as [HM Hm].
  split; [exact M |]. split; [| split].
  - intros lx Hlx. subst ls. rewrite HM, Hm. split.
    + rewrite (In_vertical_class cfg st H), M. tauto.
    + rewrite (In_vertical_class cfg st H), m. tauto.
  - intros ly Hly. subst ls. rewrite HM, Hm. split.
    + rewrite (In_horizontal_class cfg st H), M. tauto.
    + rewrite (In_horizontal_class cfg st H), m. tauto.
  - repeat split.
Qed.

(** *** The claims at concrete inputs *)

Lemma sampleState_threshold :
  2 <= baseCellSize gridConfig * currentZoom sampleState.
Proof. cbn. lra. Defined.

Lemma pixelToLogical_logicalToPixel_witness :
  ~ baseCellSize gridConfig * currentZoom sampleState == 0
  /\ Vec2_eq (pixelToLogical gridConfig sampleState
                (logicalToPixel gridConfig sampleState {| x := 3; y := -7 |}))
             {| x := 3; y := -7 |}.
Proof.
  assert (H : ~ baseCellSize gridConfig * currentZoom sampleState == 0).
  { cbn. lra. }
  split; [exact H |].
  apply (pixelToLogical_logicalToPixel gridConfig sampleState _ H).
Defined.

Lemma wheel_anchored_at_cursor_witness :
  ~ baseCellSize gridConfig * currentZoom sampleState == 0
  /\ Vec2_eq
       (logicalToPixel gridConfig
          (wheel gridConfig (mkRect 10 20) (mkWheelEvent (-100) 310 220) sampleState)
          (pixelToLogical gridConfig sampleState {| x := 310 - 10; y := 220 - 20 |}))
       {| x := 310 - 10; y := 220 - 20 |}.
Proof.
  assert (H : ~ baseCellSize gridConfig * currentZoom sampleState == 0).
  { cbn. lra. }
  split; [exact H |].
  apply (wheel_anchored_at_cursor gridConfig (mkRect 10 20)
           (mkWheelEvent (-100) 310 220) sampleState H).
Defined.

Lemma degenerate_zoom_no_lines_witness :
  baseCellSize gridConfig * currentZoom tinyState < 2
  /\ majorLineVertices (generateGridVertices gridConfig tinyState) = []
  /\ minorLineVertices (generateGridVertices gridConfig tinyState) = []
  /\ emitted (lines (updateVertexBuffers gridConfig tinyState)) = [].
Proof.
  assert (H : baseCellSize gridConfig * currentZoom tinyState < 2).
  { cbn. lra. }
  split; [exact H |].
  apply (degenerate_zoom_no_lines gridConfig tinyState H).
Defined.


Lemma lines_cover_viewport_witness :
  2 <= baseCellSize gridConfig * currentZoom sampleState
  /\ emittedVertical (generateGridVertices gridConfig sampleState) 8.
Proof.
  split; [exact sampleState_threshold |].
  destruct (lines_cover_viewport gridConfig sampleState sampleState_threshold)
    as [V _].
  apply (V 8%Z 0).
  split; apply Qle_bool_iff; vm_compute; reflexivity.
Defined.

Lemma major_iff_multiple_witness :
  sectionInterval gridConfig <> 0%Z
  /\ 2 <= baseCellSize gridConfig * currentZoom sampleState
  /\ (In (verticalLine gridConfig sampleState (-10))
         (segments (majorLineVertices (generateGridVertices gridConfig sampleState)))
      <-> (-10 mod sectionInterval gridConfig = 0)%Z).
Proof.
  assert (Hn : sectionInterval gridConfig <> 0%Z) by discriminate.
  split; [exact Hn |]. split; [exact sampleState_threshold |].
  destruct (major_iff_multiple gridConfig sampleState Hn sampleState_threshold)
    as (_ & V & _).
  destruct (V (-10)%Z) as [HV _]; [| exact HV].
  apply (In_visibleX gridConfig sampleState sampleState_threshold).
  vm_compute. split; discriminate.
Defined.
End LineGridFacts.

(** ** The cell grid *)

Module CellGridFacts.
Import CellGrid.
Local Open Scope Q_scope.

Lemma wheel_scaleInRange (e : WheelEvent) (st : State) :
  scaleInRange (wheel e st).
Proof.
  unfold scaleInRange, wheel. cbn [scale].
  apply JSFacts.clamp_range. lra.
Qed.

Lemma step_scaleInRange (ev : Event) (st : State) :
  scaleInRange st -> scaleInRange (step ev st).
Proof.
  intros H. destruct ev as [e | rect e]; cbn [step].
  - apply wheel_scaleInRange.
  - exact H.
Qed.

Lemma run_scaleInRange (evs : list Event) (st : State) :
  scaleInRange st -> scaleInRange (run evs st).
Proof.
  revert st. induction evs as [| ev evs IH]; intros st H; cbn.
  - exact H.
  - apply IH, step_scaleInRange, H.
Qed.

(** The click handler toggles the index it computes, whatever it is. *)
Lemma click_toggles (rect : Rect) (e : ClickEvent) (st : State) (i : Z) :
  i ∈ selectedCells (click rect e st)
  <-> (i ∈ selectedCells st /\ i <> cellIndex rect e st)
      \/ (i = cellIndex rect e st /\ i ∉ selectedCells st).
Proof.
  unfold click. cbn [selectedCells].
  destruct (decide (cellIndex rect e st ∈ selectedCells st)) as [Hin | Hout].
  - rewrite elem_of_difference, elem_of_singleton. split.
    + intros [? ?]. now left.
    + intros [[? ?] | [-> C]]; [now split | contradiction].
  - rewrite elem_of_union, elem_of_singleton. split.
    + intros [Hi | ->]; [left | right]; split; try assumption; try reflexivity.
      intros ->. contradiction.
    + intros [[? ?] | [-> _]]; [now left | now right].
Qed.

Lemma click_adds (rect : Rect) (e : ClickEvent) (st : State) :
  cellIndex rect e st ∉ selectedCells st ->
  cellIndex rect e st ∈ selectedCells (click rect e st).
Proof. intros H. apply click_toggles. now right. Qed.
(** C7. For a non-zero cell size, the click handler computes the index
    [floor((mouseY - cameraPos.y) / cellSize) * gridSize
     + floor((mouseX - cameraPos.x) / cellSize)] and toggles it in the
    selection; with the grid of 10 cells, a cell size of 20 pixels and
    the camera at the origin, a click at pixel (25, 45) computes the
    index 2 * 10 + 1 = 21. *)
Theorem click_cellIndex (rect : Rect) (e : ClickEvent) (st : State) :
  ~ cellSize st == 0 ->
  let index :=
    (JS.floor ((mouseY rect e - y (cameraPos st)) / cellSize st) * gridSize
     + JS.floor ((mouseX rect e - x (cameraPos st)) / cellSize st))%Z in
  cellIndex rect e st = index
  /\ (forall i : Z,
        i ∈ selectedCells (click rect e st)
        <-> (i ∈ selectedCells st /\ i <> index)
            \/ (i = index /\ i ∉ selectedCells st))
  /\ (cellSize st == 20 ->
      x (cameraPos st) == 0 -> y (cameraPos st) == 0 ->
      mouseX rect e == 25 -> mouseY rect e == 45 ->
      gridSize = 10%Z /\ index = (2 * 10 + 1)%Z /\ index = 21%Z).
Proof.
  intros Hc index. split; [reflexivity |]. split.
  - intros i. apply click_toggles.
  - intros Hs Hx Hy HmX HmY. split; [reflexivity |].
    assert (EY : (mouseY rect e - y (cameraPos st)) / cellSize st == 45 / 20).
    { rewrite Hs, Hy, HmY. field. }
    assert (EX : (mouseX rect e - x (cameraPos st)) / cellSize st == 25 / 20).
    { rewrite Hs, Hx, HmX. field. }
    subst index. unfold JS.floor.
    rewrite (Qfloor_comp _ _ EY), (Qfloor_comp _ _ EX).
    split; reflexivity.
Qed.

Lemma click_cellIndex_witness :
  ~ cellSize squareState == 0
  /\ cellSize squareState == 20
  /\ cellIndex (mkRect 0 0) (mkClickEvent 25 45) squareState = 21%Z.
Proof.
  assert (Hs : cellSize squareState == 20) by reflexivity.
  assert (Hc : ~ cellSize squareState == 0) by (rewrite Hs; lra).
  split; [exact Hc |]. split; [exact Hs |].
  destruct (click_cellIndex (mkRect 0 0) (mkClickEvent 25 45) squareState Hc)
    as (E & _ & P).
  rewrite E. apply P; reflexivity.
Defined.

(** C9. The click handler validates nothing.  On a canvas of 400 by 200
    pixels right after start-up, a click at pixel (390, 190), inside the
    canvas, computes the index 109, outside the hundred cells of the
    grid, and adds it to the selection.  A position left of the camera
    origin gives a negative column: on the square canvas it computes the
    index -1, which is added too.  In every state the index computed is
    in the selection after the click exactly when it was not before. *)
Theorem click_out_of_range_selected :
  (let rect := mkRect 0 0 in
   let e := mkClickEvent 390 190 in
   0 <= mouseX rect e <= widthQ (canvas wideState)
   /\ 0 <= mouseY rect e <= heightQ (canvas wideState)
   /\ cellIndex rect e wideState = 109%Z
   /\ ~ inGrid (cellIndex rect e wideState)
   /\ cellIndex rect e wideState ∈ selectedCells (click rect e wideState))
  /\ (let rect := mkRect 10 0 in
      let e := mkClickEvent 5 5 in
      mouseX rect e < x (cameraPos squareState)
      /\ (gridX rect e squareState < 0)%Z
      /\ cellIndex rect e squareState = (-1)%Z
      /\ ~ inGrid (cellIndex rect e squareState)
      /\ cellIndex rect e squareState ∈ selectedCells (click rect e squareState))
  /\ (forall (rect : Rect) (e : ClickEvent) (st : State),
        cellIndex rect e st ∈ selectedCells (click rect e st)
        <-> cellIndex rect e st ∉ selectedCells st).
Proof.
  split; [| split].
  - cbn zeta.
    assert (E : cellIndex (mkRect 0 0) (mkClickEvent 390 190) wideState = 109%Z)
      by reflexivity.
    split; [| split; [| split; [| split]]].
    + split; apply Qle_bool_iff; reflexivity.
    + split; apply Qle_bool_iff; reflexivity.
    + exact E.
    + rewrite E. unfold inGrid, gridSize. lia.
    + apply click_adds. rewrite E. cbn. apply not_elem_of_empty.
  - cbn zeta.
    assert (E : cellIndex (mkRect 10 0) (mkClickEvent 5 5) squareState = (-1)%Z)
      by reflexivity.
    split; [| split; [| split; [| split]]].
    + reflexivity.
    + reflexivity.
    + exact E.
    + rewrite E. unfold inGrid, gridSize. lia.
    + apply click_adds. rewrite E. cbn. apply not_elem_of_empty.
  - intros rect e st. rewrite click_toggles. split.
    + intros [[_ C] | [_ H]]; [now contradiction C | exact H].
    + intros H. right. now split.
Qed.
End CellGridFacts.

(** ** The zoom clamp *)

Module ZoomFacts.
Local Open Scope Q_scope.

(** C5. The zoom range is an invariant of the event loop.  In the line
    grid a zoom within [0.05, 20.0] stays there after any finite sequence
    of events, of which only the wheel, multiplying the zoom by 1.1 or by
    0.9 and clamping it, writes the zoom; in the cell grid a scale within
    [0.1, 5.0] stays there. *)
Theorem zoom_stays_in_range :
  (forall (cfg : LineGrid.GridConfig) (evs : list LineGrid.Event)
          (st : LineGrid.State),
      0.05 <= LineGrid.currentZoom st <= 20.0 ->
      0.05 <= LineGrid.currentZoom (LineGrid.run cfg evs st) <= 20.0)
  /\ (forall (evs : list CellGrid.Event) (st : CellGrid.State),
        0.1 <= CellGrid.scale st <= 5.0 ->
        0.1 <= CellGrid.scale (CellGrid.run evs st) <= 5.0).
Proof.
  split.
  - intros cfg evs st. apply LineGridFacts.run_zoomInRange.
  - intros evs st. apply CellGridFacts.run_scaleInRange.
Qed.

Lemma zoom_stays_in_range_witness :
  let zoomOut := LineGrid.Wheel (mkRect 0 0) (LineGrid.mkWheelEvent 100 400 300) in
  let evs := [zoomOut; zoomOut; LineGrid.Resize 640 480; zoomOut] in
  0.05 <= LineGrid.currentZoom LineGrid.sampleState <= 20.0
  /\ 0.05 <= LineGrid.currentZoom
               (LineGrid.run LineGrid.gridConfig evs LineGrid.sampleState)
     <= 20.0.
Proof.
  intros zoomOut evs.
  assert (H : 0.05 <= LineGrid.currentZoom LineGrid.sampleState <= 20.0).
  { cbn. lra. }
  split; [exact H |].
  destruct zoom_stays_in_range as [L _].
  apply (L LineGrid.gridConfig evs LineGrid.sampleState H).
Defined.
End ZoomFacts.

(** ** Start-up without a device *)

Module StartupFacts.
Import Startup.
Local Open Scope string_scope.

(** The two unsupported environments. *)
Lemma unsupported_cases (navigator : Navigator) :
  unsupported navigator = true ->
  navigator = mkNavigator None \/ navigator = mkNavigator (Some (mkGpu None)).
Proof.
  destruct navigator as [[[[a |]] |]]; cbn; intros H;
    [discriminate | now right | now left].
Qed.

(** [main] alerts and returns before it touches the canvas. *)
Lemma main_unsupported (navigator : Navigator) :
  unsupported navigator = true ->
  List.filter (fun e => negb (isRequest e)) (effects (main navigator))
  = [Alert "need a browser that supports WebGPU"].
Proof.
  intros H. destruct (unsupported_cases navigator H) as [-> | ->]; reflexivity.
Qed.

(** When [requestDevice] rejects, [main] ends with the rejection and
    reports nothing. *)
Lemma main_device_rejected :
  main (mkNavigator (Some (mkGpu (Some (mkAdapter None)))))
  = ([RequestAdapter; RequestDevice], Throw "OperationError").
Proof. reflexivity. Qed.

(** With a device, [main] sets the canvas up and alerts nothing. *)
Lemma main_supported :
  let m := main (mkNavigator (Some (mkGpu (Some (mkAdapter (Some GPUDevice)))))) in
  List.filter isAlert (effects m) = []
  /\ List.length (List.filter isSetup (effects m)) = 7%nat
  /\ completion m = Normal tt.
Proof. repeat split. Qed.

(** The main script reports every failure of [getDevice] on the console,
    a rejected [requestDevice] too. *)
Lemma mainScript_device_rejected :
  let m := mainScript (mkNavigator (Some (mkGpu (Some (mkAdapter None))))) in
  List.filter isAlert (effects m) = []
  /\ List.filter isConsoleError (effects m) = [ConsoleError "OperationError"]
  /\ List.filter isSetup (effects m) = [].
Proof. repeat split. Qed.

(** C8, as the code has it.  When [navigator.gpu] is missing or no
    adapter is returned, [main] of [src/minor.js] reports the failure by
    exactly one alert, asks for an adapter at most once, sets nothing up,
    renders nothing and returns; the main script, in the same
    environments, raises no alert: it reports the failure by exactly one
    [console.error], asks for an adapter at most once, and its set-up
    and rendering handler does not run. *)
Theorem unsupported_reported_once (navigator : Navigator) :
  unsupported navigator = true ->
  alertedOnceAndHalted (main navigator)
  /\ List.filter isAlert (effects (main navigator))
     = [Alert "need a browser that supports WebGPU"]
  /\ loggedOnceAndHalted (mainScript navigator).
Proof.
  intros H. unfold alertedOnceAndHalted, loggedOnceAndHalted.
  destruct (unsupported_cases navigator H) as [-> | ->]; cbn;
    repeat split; lia.
Qed.

Lemma unsupported_reported_once_witness :
  unsupported (mkNavigator None) = true
  /\ alertedOnceAndHalted (main (mkNavigator None))
  /\ loggedOnceAndHalted (mainScript (mkNavigator None)).
Proof.
  split; [reflexivity |].
  destruct (unsupported_reported_once (mkNavigator None) eq_refl) as (A & _ & L).
  split; [exact A | exact L].
Defined.

(** C8, as stated, fails: without [navigator.gpu] the main script raises
    no alert at all. *)
Lemma mainScript_raises_no_alert : ~ unsupportedIsAlerted.
Proof.
  intros H.
  assert (I : In mainScript startups) by (right; left; reflexivity).
  destruct (H mainScript I (mkNavigator None) eq_refl) as [C _].
  cbn in C. discriminate C.
Qed.
End StartupFacts.

(** ** The line grid: camera, arrays and events *)

Module LineGridViewFacts.
Import LineGrid LineGridView LineGridFacts.
Local Open Scope Q_scope.

Section Events.
Context (cfg : GridConfig).

(** The generator reads the canvas, the zoom and the pan, nothing else. *)
Lemma generateGridVertices_camera (a b : State) :
  canvas a = canvas b -> currentZoom a = currentZoom b ->
  panOffset a = panOffset b ->
  generateGridVertices cfg a = generateGridVertices cfg b.
Proof.
  destruct a, b; cbn [canvas currentZoom panOffset].
  intros -> -> ->. reflexivity.
Qed.

Lemma updateVertexBuffers_inSync (st : State) :
  inSync cfg (updateVertexBuffers cfg st).
Proof.
  unfold inSync. cbn [updateVertexBuffers lines].
  apply generateGridVertices_camera; reflexivity.
Qed.

Lemma step_inSync (ev : Event) (st : State) :
  inSync cfg st -> inSync cfg (step cfg ev st).
Proof.
  unfold inSync. intros H.
  destruct ev as [rect event | event | event | | | w h]; cbn [step].
  - apply updateVertexBuffers_inSync.
  - unfold mousedown. destruct (button event =? 0)%Z; [| exact H].
    cbn [lines]. rewrite H.
    apply generateGridVertices_camera; reflexivity.
  - unfold mousemove. destruct (isPanning st); [| exact H].
    apply updateVertexBuffers_inSync.
  - cbn [stopPanning lines]. rewrite H.
    apply generateGridVertices_camera; reflexivity.
  - cbn [stopPanning lines]. rewrite H.
    apply generateGridVertices_camera; reflexivity.
  - unfold resize. destruct (negb _ || negb _)%bool; [| exact H].
    apply updateVertexBuffers_inSync.
Qed.

Lemma run_inSync (evs : list Event) (st : State) :
  inSync cfg st -> inSync cfg (run cfg evs st).
Proof.
  revert st. induction evs as [| ev evs IH]; intros st H; cbn.
  - exact H.
  - apply IH, step_inSync, H.
Qed.

(** X1. Whatever events arrive after start-up, the vertex arrays are the
    ones [generateGridVertices] computes for the current canvas, zoom and
    pan: no handler changes the camera without regenerating them. *)
Theorem arrays_follow_camera (c : Canvas) (evs : list Event) :
  let st := run cfg evs (initialState cfg c) in
  lines st = generateGridVertices cfg st.
Proof.
  cbn zeta. apply run_inSync. unfold initialState.
  apply updateVertexBuffers_inSync.
Qed.

(** *** Panning *)

Lemma stopPanning_idle (st : State) :
  isPanning st = false -> stopPanning st = st.
Proof. destruct st; cbn. now intros ->. Qed.

Lemma step_idle (ev : Event) (st : State) :
  isPanning st = false -> idle ev -> step cfg ev st = st.
Proof.
  intros Hp Hi. destruct ev as [rect event | event | event | | | w h];
    cbn [step idle] in *; try contradiction.
  - unfold mousedown. destruct (Z.eqb_spec (button event) 0); [contradiction |].
    reflexivity.
  - unfold mousemove. now rewrite Hp.
  - now apply stopPanning_idle.
  - now apply stopPanning_idle.
Qed.

(** X2. While the left button is up, moving the mouse, releasing a
    button, leaving the canvas or pressing another button changes nothing:
    the state after any such sequence is the state before it. *)
Theorem idle_events_change_nothing (evs : list Event) (st : State) :
  isPanning st = false -> Forall idle evs -> run cfg evs st = st.
Proof.
  intros Hp Hall. induction Hall as [| ev evs Hev _ IH]; cbn.
  - reflexivity.
  - rewrite (step_idle ev st Hp Hev). exact IH.
Qed.

(** X3. A move of the mouse with the button held shifts the picture of
    every logical point by the displacement of the mouse since the last
    event, and leaves the zoom alone. *)
Theorem pan_shifts_every_point (event : MouseEvent) (st : State) (L : Vec2) :
  isPanning st = true ->
  let dx := clientX event - x (lastMousePos st) in
  let dy := clientY event - y (lastMousePos st) in
  let st' := mousemove cfg event st in
  Vec2_eq (logicalToPixel cfg st' L)
          {| x := x (logicalToPixel cfg st L) + dx;
             y := y (logicalToPixel cfg st L) + dy |}
  /\ currentZoom st' = currentZoom st
  /\ canvas st' = canvas st.
Proof.
  intros Hp dx dy st'. subst st'. unfold mousemove. rewrite Hp.
  split; [| split; reflexivity].
  unfold Vec2_eq, logicalToPixel, pixel_pos, frameUniforms, effectiveCellSize,
    gridOriginX, gridOriginY.
  cbn [x y scale_factor_xy grid_origin_pixels_xy updateVertexBuffers
       canvas currentZoom panOffset].
  subst dx dy. split; ring.
Qed.

Lemma drag_step (path : list MouseEvent) (st : State) :
  isPanning st = true ->
  let st' := run cfg (drag path) st in
  let final := dragEnd path (lastMousePos st) in
  isPanning st' = true
  /\ lastMousePos st' = final
  /\ currentZoom st' = currentZoom st
  /\ x (panOffset st') == x (panOffset st) + (x final - x (lastMousePos st))
  /\ y (panOffset st') == y (panOffset st) + (y final - y (lastMousePos st)).
Proof.
  revert st. induction path as [| event path IH]; intros st Hp; cbn zeta.
  - cbn. repeat split; try assumption; ring.
  - cbn [drag map run fold_left step dragEnd].
    assert (Hm : mousemove cfg event st
                 = updateVertexBuffers cfg
                     {| canvas := canvas st; currentZoom := currentZoom st;
                        panOffset :=
                          {| x := x (panOffset st) + (clientX event - x (lastMousePos st));
                             y := y (panOffset st) + (clientY event - y (lastMousePos st)) |};
                        lines := lines st; isPanning := isPanning st;
                        lastMousePos := {| x := clientX event; y := clientY event |} |}).
    { unfold mousemove. now rewrite Hp. }
    assert (Hp' : isPanning (mousemove cfg event st) = true).
    { rewrite Hm. exact Hp. }
    destruct (IH (mousemove cfg event st) Hp') as (I1 & I2 & I3 & I4 & I5).
    cbn zeta in I1, I2, I3, I4, I5.
    unfold drag, run in I1, I2, I3, I4, I5.
    rewrite Hm in I2, I3, I4, I5.
    cbn [updateVertexBuffers lastMousePos currentZoom panOffset x y]
      in I2, I3, I4, I5.
    rewrite <- Hm in I2, I3, I4, I5.
    split; [exact I1 |]. split; [exact I2 |]. split; [exact I3 |].
    split; [rewrite I4 | rewrite I5]; ring.
Qed.

(** X4. A drag moves the grid by the net displacement of the mouse: after
    any path of moves with the button held, the pan offset has grown by
    the difference between the last and the first mouse position, however
    the mouse got there; the zoom is untouched. *)
Theorem drag_pans_by_net_displacement (path : list MouseEvent) (st : State) :
  isPanning st = true ->
  let st' := run cfg (drag path) st in
  let final := dragEnd path (lastMousePos st) in
  x (panOffset st') == x (panOffset st) + (x final - x (lastMousePos st))
  /\ y (panOffset st') == y (panOffset st) + (y final - y (lastMousePos st))
  /\ currentZoom st' = currentZoom st.
Proof.
  intros Hp. destruct (drag_step path st Hp) as (_ & _ & Hz & Hx & Hy).
  cbn zeta in *. repeat split; assumption.
Qed.

(** *** The zoom steps *)

Lemma clamp_id (lo hi v : Q) :
  lo <= v -> v <= hi -> JS.max lo (JS.min v hi) = v.
Proof.
  intros Hlo Hhi. unfold JS.max, JS.min, JS.leb.
  rewrite (proj2 (Qle_bool_iff v hi) Hhi).
  now rewrite (proj2 (Qle_bool_iff lo v) Hlo).
Qed.

Lemma zoomStep_in (event : WheelEvent) (zoom : Q) :
  zoomsIn event ->
  zoomStep event zoom = JS.max 0.05 (JS.min (zoom * (1 + 1 * 0.1)) 20.0).
Proof.
  intros H. unfold zoomStep.
  now rewrite (proj2 (JSFacts.ltb_lt _ _) H).
Qed.

Lemma zoomStep_out (event : WheelEvent) (zoom : Q) :
  zoomsOut event ->
  zoomStep event zoom = JS.max 0.05 (JS.min (zoom * (1 + -1 * 0.1)) 20.0).
Proof.
  intros H. unfold zoomStep.
  now rewrite (proj2 (JSFacts.ltb_ge _ _) H).
Qed.

Lemma leb_false (a b : Q) : JS.leb a b = false -> b < a.
Proof.
  unfold JS.leb. intros H. apply Qnot_le_lt. intros C.
  apply Qle_bool_iff in C. congruence.
Qed.

Lemma leb_true (a b : Q) : JS.leb a b = true -> a <= b.
Proof. apply Qle_bool_iff. Qed.

Lemma min_cases (a b : Q) :
  (a <= b /\ JS.min a b = a) \/ (b < a /\ JS.min a b = b).
Proof.
  unfold JS.min. destruct (JS.leb a b) eqn:E.
  - left. split; [now apply leb_true | reflexivity].
  - right. split; [now apply leb_false | reflexivity].
Qed.

Lemma max_cases (a b : Q) :
  (a <= b /\ JS.max a b = b) \/ (b < a /\ JS.max a b = a).
Proof.
  unfold JS.max. destruct (JS.leb a b) eqn:E.
  - left. split; [now apply leb_true | reflexivity].
  - right. split; [now apply leb_false | reflexivity].
Qed.

Ltac clamp_cases :=
  repeat match goal with
         | |- context [JS.min ?a ?b] =>
             destruct (min_cases a b) as [[? ->] | [? ->]]
         | |- context [JS.max ?a ?b] =>
             destruct (max_cases a b) as [[? ->] | [? ->]]
         end.

(** X5. A notch in followed by a notch out does not restore the zoom:
    away from the two ends of the range it leaves 99 hundredths of it. *)
Theorem zoom_in_then_out (up down : WheelEvent) (zoom : Q) :
  zoomsIn up -> zoomsOut down ->
  0.05 <= 0.99 * zoom -> 1.1 * zoom <= 20 ->
  zoomStep down (zoomStep up zoom) == 0.99 * zoom.
Proof.
  intros Hup Hdown Hlo Hhi.
  rewrite (zoomStep_in up zoom Hup), (clamp_id 0.05 20.0) by lra.
  rewrite (zoomStep_out down _ Hdown), (clamp_id 0.05 20.0) by lra.
  ring.
Qed.

(** X6. Within the range, a notch in never lowers the zoom and a notch
    out never raises it; at the upper end a notch in, and at the lower end
    a notch out, leaves the zoom where it is. *)
Theorem zoom_steps_monotone (event : WheelEvent) (zoom : Q) :
  0.05 <= zoom <= 20.0 ->
  (zoomsIn event ->
   zoom <= zoomStep event zoom /\ (zoom == 20.0 -> zoomStep event zoom == 20.0))
  /\ (zoomsOut event ->
      zoomStep event zoom <= zoom /\ (zoom == 0.05 -> zoomStep event zoom == 0.05)).
Proof.
  intros [Hlo Hhi]. split; intros He.
  - rewrite (zoomStep_in event zoom He). split; [| intros Hz]; clamp_cases; lra.
  - rewrite (zoomStep_out event zoom He). split; [| intros Hz]; clamp_cases; lra.
Qed.

(** *** The arrays *)

Lemma length_flatten (l : list Segment) :
  List.length (flatten l) = (4 * List.length l)%nat.
Proof.
  induction l as [| s l IH]; [reflexivity |].
  rewrite flatten_cons, length_app, IH. cbn [lineEndpoints List.length]. lia.
Qed.

Lemma length_zrange (n : nat) (lo : Z) : List.length (zrange n lo) = n.
Proof.
  revert lo. induction n as [| n IH]; intros lo; cbn; [reflexivity |].
  now rewrite IH.
Qed.

Lemma NoDup_zrange (n : nat) (lo : Z) : List.NoDup (zrange n lo).
Proof.
  revert lo. induction n as [| n IH]; intros lo; cbn [zrange].
  - apply List.NoDup_nil.
  - apply List.NoDup_cons; [| apply IH].
    intros C. apply In_zrange in C. lia.
Qed.

(** Above the threshold, each array is the flattening of its lines. *)
Lemma generateGridVertices_arrays (st : State) :
  2 <= effectiveCellSize cfg st ->
  majorLineVertices (generateGridVertices cfg st)
    = flatten (map (verticalLine cfg st) (List.filter (isMajor cfg) (visibleX cfg st))
               ++ map (horizontalLine cfg st)
                    (List.filter (isMajor cfg) (visibleY cfg st)))
  /\ minorLineVertices (generateGridVertices cfg st)
    = flatten (map (verticalLine cfg st)
                 (List.filter (fun i => negb (isMajor cfg i)) (visibleX cfg st))
               ++ map (horizontalLine cfg st)
                    (List.filter (fun i => negb (isMajor cfg i)) (visibleY cfg st))).
Proof.
  intros H. unfold generateGridVertices, forRange.
  rewrite (proj2 (JSFacts.ltb_ge _ _) H).
  match goal with
  | |- context [forLoop ?n ?lo (fun ly => pushLine cfg ly (horizontalLine cfg st ly)) ?ls] =>
      destruct (forLoop_pushLine cfg (horizontalLine cfg st) n lo ls) as [HM Hm]
  end.
  cbn zeta in HM, Hm. rewrite HM, Hm. clear HM Hm.
  match goal with
  | |- context [forLoop ?n ?lo (fun lx => pushLine cfg lx (verticalLine cfg st lx)) ?ls] =>
      destruct (forLoop_pushLine cfg (verticalLine cfg st) n lo ls) as [VM Vm]
  end.
  cbn zeta in VM, Vm. rewrite VM, Vm. clear VM Vm.
  cbn [emptyLines majorLineVertices minorLineVertices app].
  rewrite <- !flatten_app. split; reflexivity.
Qed.

(** Whatever the zoom, each array is the flattening of the lines it
    draws. *)
Lemma generateGridVertices_whole_lines (st : State) :
  let ls := generateGridVertices cfg st in
  flatten (segments (majorLineVertices ls)) = majorLineVertices ls
  /\ flatten (segments (minorLineVertices ls)) = minorLineVertices ls.
Proof.
  cbn zeta. destruct (Qlt_le_dec (effectiveCellSize cfg st) 2) as [Hlt | Hge].
  - rewrite (generateGridVertices_empty cfg st Hlt). split; reflexivity.
  - destruct (generateGridVertices_arrays st Hge) as [-> ->].
    rewrite !segments_flatten. split; reflexivity.
Qed.

Lemma whole_lines_counts (vs : list Q) :
  flatten (segments vs) = vs ->
  let n := Z.of_nat (List.length (segments vs)) in
  Z.of_nat (List.length vs) = (4 * n)%Z
  /\ drawCount vs == inject_Z (2 * n)
  /\ vertexBufferSize vs = Z.max 16 (16 * n)
  /\ (writesBuffer vs = true <-> segments vs <> []).
Proof.
  intros H n.
  assert (L : Z.of_nat (List.length vs) = (4 * n)%Z).
  { rewrite <- H at 1. rewrite length_flatten. subst n. lia. }
  split; [exact L |]. split; [| split].
  - unfold drawCount. rewrite L.
    replace (4 * n)%Z with (2 * n * 2)%Z by lia.
    rewrite inject_Z_mult. change (inject_Z 2) with 2. field.
  - unfold vertexBufferSize. rewrite L. lia.
  - unfold writesBuffer. rewrite L, Z.ltb_lt. subst n.
    destruct (segments vs); cbn [List.length]; split; intros; try lia; congruence.
Qed.

(** X7. Each vertex array always holds whole lines, four numbers a line:
    the vertex count [length / 2] passed to the draw call is the even
    integer twice the number of lines, the buffer created for the array
    has [max(16, 16 * lines)] bytes, and the array is written to it exactly
    when it draws at least one line. *)
Theorem arrays_hold_whole_lines (st : State) :
  let ls := generateGridVertices cfg st in
  let major := Z.of_nat (List.length (segments (majorLineVertices ls))) in
  let minor := Z.of_nat (List.length (segments (minorLineVertices ls))) in
  (Z.of_nat (List.length (majorLineVertices ls)) = (4 * major)%Z
   /\ drawCount (majorLineVertices ls) == inject_Z (2 * major)
   /\ vertexBufferSize (majorLineVertices ls) = Z.max 16 (16 * major)
   /\ (writesBuffer (majorLineVertices ls) = true
       <-> segments (majorLineVertices ls) <> []))
  /\ (Z.of_nat (List.length (minorLineVertices ls)) = (4 * minor)%Z
      /\ drawCount (minorLineVertices ls) == inject_Z (2 * minor)
      /\ vertexBufferSize (minorLineVertices ls) = Z.max 16 (16 * minor)
      /\ (writesBuffer (minorLineVertices ls) = true
          <-> segments (minorLineVertices ls) <> [])).
Proof.
  cbn zeta. destruct (generateGridVertices_whole_lines st) as [HM Hm].
  split; apply whole_lines_counts; assumption.
Qed.

(** *** How many lines *)

Lemma view_width (st : State) :
  2 <= baseCellSize cfg * currentZoom st ->
  viewMaxLogicalX cfg st - viewMinLogicalX cfg st
  == widthQ (canvas st) / effectiveCellSize cfg st + 10
  /\ viewMaxLogicalY cfg st - viewMinLogicalY cfg st
     == heightQ (canvas st) / effectiveCellSize cfg st + 10.
Proof.
  intros H. unfold viewMaxLogicalX, viewMinLogicalX, viewMaxLogicalY,
    viewMinLogicalY, gridOriginX, gridOriginY, effectiveCellSize.
  split; field; apply JSFacts.mult_nonzero; lra.
Qed.

Lemma range_length (lo hi : Q) :
  lo <= hi ->
  inject_Z (Z.of_nat (List.length
              (zrange (Z.to_nat (JS.ceil hi - JS.floor lo + 1)) (JS.floor lo))))
  <= hi - lo + 3.
Proof.
  intros Hle. rewrite length_zrange, ZifyInst.of_nat_to_nat_eq.
  assert (Hc := Qceiling_lt hi). assert (Hf := Qlt_floor lo).
  unfold JS.ceil, JS.floor.
  unfold Z.sub in Hc. rewrite inject_Z_plus in Hc, Hf.
  change (inject_Z (- (1))) with (- (1)) in Hc. change (inject_Z 1) with 1 in Hf.
  destruct (Z.max_spec 0 (Qceiling hi - Qfloor lo + 1)) as [[_ ->] | [_ ->]].
  - unfold Z.sub. rewrite !inject_Z_plus, inject_Z_opp.
    change (inject_Z 1) with 1. lra.
  - change (inject_Z 0) with 0. lra.
Qed.

Lemma quotient_nonneg (a c : Q) : 0 <= a -> 0 < c -> 0 <= a / c.
Proof.
  intros Ha Hc. apply Qle_shift_div_l; [exact Hc | lra].
Qed.

Lemma quotient_half (a c : Q) : 0 <= a -> 2 <= c -> a / c <= a / 2.
Proof.
  intros Ha Hc. apply Qle_shift_div_r; [lra |].
  assert (E : a / 2 * c == a * (c / 2)) by field.
  rewrite E.
  assert (H1 : 1 <= c / 2) by (apply Qle_shift_div_l; lra).
  assert (H2 : a * 1 <= a * (c / 2)).
  { rewrite !(Qmult_comm a). apply Qmult_le_compat_r; assumption. }
  lra.
Qed.

(** X8. Above the threshold the number of lines is bounded by the size
    of the canvas: at most [width / effectiveCellSize + 13] columns and
    [height / effectiveCellSize + 13] rows are generated, each drawn as one
    line, hence never more than [(width + height) / 2 + 26] lines. *)
Theorem line_count_bounded (st : State) :
  2 <= baseCellSize cfg * currentZoom st ->
  let ls := generateGridVertices cfg st in
  let columns := List.length (visibleX cfg st) in
  let rows := List.length (visibleY cfg st) in
  List.length (emitted ls) = (columns + rows)%nat
  /\ inject_Z (Z.of_nat columns)
     <= widthQ (canvas st) / effectiveCellSize cfg st + 13
  /\ inject_Z (Z.of_nat rows)
     <= heightQ (canvas st) / effectiveCellSize cfg st + 13
  /\ inject_Z (Z.of_nat (List.length (emitted ls)))
     <= (widthQ (canvas st) + heightQ (canvas st)) / 2 + 26.
Proof.
  intros H ls columns rows.
  assert (HL : List.length (emitted ls) = (columns + rows)%nat).
  { subst ls columns rows. unfold emitted.
    destruct (generateGridVertices_lines cfg st H) as [-> ->].
    rewrite !length_app, !length_map.
    generalize (filter_length (isMajor cfg) (visibleX cfg st)).
    generalize (filter_length (isMajor cfg) (visibleY cfg st)). lia. }
  destruct (view_width st H) as [WX WY].
  assert (HX : viewMinLogicalX cfg st <= viewMaxLogicalX cfg st).
  { generalize (quotient_nonneg (widthQ (canvas st)) (effectiveCellSize cfg st)
                  (widthQ_nonneg _)).
    unfold effectiveCellSize in *. lra. }
  assert (HY : viewMinLogicalY cfg st <= viewMaxLogicalY cfg st).
  { generalize (quotient_nonneg (heightQ (canvas st)) (effectiveCellSize cfg st)
                  (heightQ_nonneg _)).
    unfold effectiveCellSize in *. lra. }
  assert (CX := range_length _ _ HX). assert (CY := range_length _ _ HY).
  fold (visibleX cfg st) in CX. fold (visibleY cfg st) in CY.
  fold columns in CX. fold rows in CY.
  split; [exact HL |]. split; [lra |]. split; [lra |].
  rewrite HL, Nat2Z.inj_add, inject_Z_plus.
  generalize (quotient_half (widthQ (canvas st)) (effectiveCellSize cfg st)
                (widthQ_nonneg _) H).
  generalize (quotient_half (heightQ (canvas st)) (effectiveCellSize cfg st)
                (heightQ_nonneg _) H).
  intros Hh Hw.
  assert (E : (widthQ (canvas st) + heightQ (canvas st)) / 2
              == widthQ (canvas st) / 2 + heightQ (canvas st) / 2) by field.
  rewrite E. lra.
Qed.

Lemma NoDup_map_inj {A B : Type} (f : A -> B) (l : list A) :
  (forall a b, f a = f b -> a = b) -> List.NoDup l -> List.NoDup (map f l).
Proof.
  intros Hf Hl. induction Hl as [| a l Ha Hl IH]; cbn [map].
  - apply List.NoDup_nil.
  - apply List.NoDup_cons; [| exact IH].
    intros C. apply in_map_iff in C. destruct C as (b & E & Hb).
    apply Hf in E. now subst b.
Qed.

Lemma class_lines_NoDup (st : State) (p : Z -> bool) :
  2 <= baseCellSize cfg * currentZoom st ->
  List.NoDup (map (verticalLine cfg st) (List.filter p (visibleX cfg st))
              ++ map (horizontalLine cfg st) (List.filter p (visibleY cfg st))).
Proof.
  intros H. apply List.NoDup_app.
  - apply NoDup_map_inj; [apply verticalLine_inj |].
    apply List.NoDup_filter, NoDup_zrange.
  - apply NoDup_map_inj; [apply horizontalLine_inj |].
    apply List.NoDup_filter, NoDup_zrange.
  - intros s Hv Hh. apply in_map_iff in Hv, Hh.
    destruct Hv as (a & <- & _). destruct Hh as (b & E & _).
    now apply (horizontalLine_not_vertical cfg st H) in E.
Qed.

(** X9. Above the threshold no line is generated twice: the lines drawn
    from the two arrays are pairwise different. *)
Theorem each_line_once (st : State) :
  2 <= baseCellSize cfg * currentZoom st ->
  List.NoDup (emitted (generateGridVertices cfg st)).
Proof.
  intros H. unfold emitted.
  destruct (generateGridVertices_lines cfg st H) as [-> ->].
  apply List.NoDup_app; try apply (class_lines_NoDup st _ H).
  intros s HM Hm. apply in_app_iff in HM, Hm.
  destruct HM as [HM | HM]; apply in_map_iff in HM; destruct HM as (a & <- & Ha);
    apply filter_In in Ha; destruct Ha as [_ Ha];
    destruct Hm as [Hm | Hm]; apply in_map_iff in Hm; destruct Hm as (b & E & Hb);
    apply filter_In in Hb; destruct Hb as [_ Hb].
  - apply verticalLine_inj in E. subst b. rewrite Ha in Hb. discriminate.
  - now apply (horizontalLine_not_vertical cfg st H) in E.
  - symmetry in E. now apply (horizontalLine_not_vertical cfg st H) in E.
  - apply horizontalLine_inj in E. subst b. rewrite Ha in Hb. discriminate.
Qed.

(** *** The clip-space position *)

Lemma quotient_bounds (a lo hi c : Q) :
  0 < c ->
  (lo <= a / c <-> lo * c <= a) /\ (a / c <= hi <-> a <= hi * c).
Proof.
  intros Hc. assert (E : a / c * c == a) by (field; lra).
  split.
  - rewrite <- (Qmult_le_r lo (a / c) c Hc), E. reflexivity.
  - rewrite <- (Qmult_le_r (a / c) hi c Hc), E. reflexivity.
Qed.

Lemma canvas_positive (st : State) :
  (1 <= width (canvas st))%N -> (1 <= height (canvas st))%N ->
  0 < widthQ (canvas st) /\ 0 < heightQ (canvas st).
Proof.
  intros Hw Hh. unfold widthQ, heightQ. change 0 with (inject_Z 0).
  rewrite <- !Zlt_Qlt. lia.
Qed.

(** X10. On a canvas that is not empty, the vertex shader puts a point
    within the horizontal clip range [-1, 1] exactly when its pixel
    abscissa lies on the canvas, in [0, width]; it puts it within the
    vertical clip range exactly when its pixel ordinate lies in
    [height / 2, 3 * height / 2], the second step scaling by two without
    subtracting one. *)
Theorem vs_main_clip_range (st : State) (L : Vec2) :
  (1 <= width (canvas st))%N -> (1 <= height (canvas st))%N ->
  let p := logicalToPixel cfg st L in
  let ndc := vs_main (frameUniforms cfg st) L in
  (-1 <= x ndc <= 1 <-> 0 <= x p <= widthQ (canvas st))
  /\ (-1 <= y ndc <= 1
      <-> heightQ (canvas st) / 2 <= y p <= 3 * heightQ (canvas st) / 2).
Proof.
  intros Hw Hh p ndc. destruct (canvas_positive st Hw Hh) as [Wpos Hpos].
  subst ndc. unfold vs_main. fold (logicalToPixel cfg st L). fold p.
  cbn [x y frameUniforms viewport_size_xy].
  destruct (quotient_bounds (x p) 0 1 _ Wpos) as [X0 X1].
  destruct (quotient_bounds (y p) (1 # 2) (3 # 2) _ Hpos) as [Y0 Y1].
  split; split; intros [A B].
  - assert (0 * widthQ (canvas st) <= x p) by (apply X0; lra).
    assert (x p <= 1 * widthQ (canvas st)) by (apply X1; lra).
    split; lra.
  - assert (0 <= x p / widthQ (canvas st)) by (apply X0; lra).
    assert (x p / widthQ (canvas st) <= 1) by (apply X1; lra).
    split; lra.
  - assert (HA : (1 # 2) * heightQ (canvas st) <= y p) by (apply Y0; lra).
    assert (HB : y p <= (3 # 2) * heightQ (canvas st)) by (apply Y1; lra).
    assert (E1 : heightQ (canvas st) / 2 == (1 # 2) * heightQ (canvas st)) by field.
    assert (E2 : 3 * heightQ (canvas st) / 2 == (3 # 2) * heightQ (canvas st)) by field.
    rewrite E1, E2. split; assumption.
  - assert (E1 : heightQ (canvas st) / 2 == (1 # 2) * heightQ (canvas st)) by field.
    assert (E2 : 3 * heightQ (canvas st) / 2 == (3 # 2) * heightQ (canvas st)) by field.
    rewrite E1 in A. rewrite E2 in B.
    assert ((1 # 2) <= y p / heightQ (canvas st)) by (apply Y0; exact A).
    assert (y p / heightQ (canvas st) <= (3 # 2)) by (apply Y1; exact B).
    split; lra.
Qed.

(** *** Resizing *)

(** X11. After a resize notification the canvas has exactly the floored
    sizes, raised to one pixel where they are smaller; zoom and pan are
    kept, and the logical point at the centre of the canvas is the same as
    before. *)
Theorem resize_clamps_and_keeps_centre (inlineSize blockSize : Q) (st : State) :
  let st' := resize cfg inlineSize blockSize st in
  width (canvas st') = Z.to_N (Z.max 1 (JS.floor inlineSize))
  /\ height (canvas st') = Z.to_N (Z.max 1 (JS.floor blockSize))
  /\ (1 <= width (canvas st'))%N /\ (1 <= height (canvas st'))%N
  /\ currentZoom st' = currentZoom st
  /\ panOffset st' = panOffset st
  /\ Vec2_eq (pixelToLogical cfg st' (centre st')) (pixelToLogical cfg st (centre st)).
Proof.
  cbn zeta.
  assert (S : width (canvas (resize cfg inlineSize blockSize st))
                = Z.to_N (Z.max 1 (JS.floor inlineSize))
              /\ height (canvas (resize cfg inlineSize blockSize st))
                 = Z.to_N (Z.max 1 (JS.floor blockSize))
              /\ currentZoom (resize cfg inlineSize blockSize st) = currentZoom st
              /\ panOffset (resize cfg inlineSize blockSize st) = panOffset st).
  { unfold resize.
    destruct (N.eqb_spec (width (canvas st)) (Z.to_N (Z.max 1 (JS.floor inlineSize))))
      as [Ew | Nw];
      destruct (N.eqb_spec (height (canvas st)) (Z.to_N (Z.max 1 (JS.floor blockSize))))
        as [Eh | Nh]; cbn [negb orb updateVertexBuffers canvas width height
                           currentZoom panOffset]; repeat split; assumption. }
  destruct S as (Sw & Sh & Sz & Sp).
  split; [exact Sw |]. split; [exact Sh |].
  split; [rewrite Sw; lia |]. split; [rewrite Sh; lia |].
  split; [exact Sz |]. split; [exact Sp |].
  unfold Vec2_eq, pixelToLogical, centre. cbn [x y]. rewrite Sz, Sp.
  unfold Qdiv. split; ring.
Qed.
End Events.

(** *** The demo *)

Lemma initialState_zoomInRange (c : Canvas) :
  zoomInRange (initialState gridConfig c).
Proof. unfold zoomInRange. cbn. lra. Qed.

(** X12. In the demo the guard against a too fine grid never fires: the
    base cell of 50 pixels and the zoom floor of 0.05 keep the effective
    cell size at 2.5 pixels or more after any events, so the arrays in use
    always contain the line of every column and of every row whose pixel
    coordinate is on the canvas. *)
Theorem demo_never_degenerate (c : Canvas) (evs : list Event) :
  let st := run gridConfig evs (initialState gridConfig c) in
  2.5 <= effectiveCellSize gridConfig st
  /\ JS.ltb (effectiveCellSize gridConfig st) 2 = false
  /\ (forall (lx : Z) (ly : Q),
        0 <= x (logicalToPixel gridConfig st {| x := inject_Z lx; y := ly |})
          <= widthQ (canvas st) ->
        emittedVertical (lines st) lx)
  /\ (forall (lx : Q) (ly : Z),
        0 <= y (logicalToPixel gridConfig st {| x := lx; y := inject_Z ly |})
          <= heightQ (canvas st) ->
        emittedHorizontal (lines st) ly).
Proof.
  intros st.
  assert (Z : zoomInRange st).
  { apply run_zoomInRange, initialState_zoomInRange. }
  assert (S : inSync gridConfig st).
  { apply run_inSync. unfold initialState. apply updateVertexBuffers_inSync. }
  unfold zoomInRange in Z. unfold inSync in S.
  assert (E : 2.5 <= effectiveCellSize gridConfig st).
  { unfold effectiveCellSize, gridConfig. cbn [baseCellSize]. lra. }
  assert (T : 2 <= baseCellSize gridConfig * currentZoom st).
  { unfold effectiveCellSize in E. lra. }
  split; [exact E |]. split; [apply JSFacts.ltb_ge; exact T |].
  rewrite S. split.
  - intros lx ly Hp. apply (margin_columns gridConfig st T).
    destruct (on_canvas_x gridConfig st T lx ly Hp). split; lra.
  - intros lx ly Hp. apply (margin_rows gridConfig st T).
    destruct (on_canvas_y gridConfig st T lx ly Hp). split; lra.
Qed.

(** *** The properties at concrete inputs *)

Lemma idle_events_change_nothing_witness :
  let evs := [MouseMove (mkMouseEvent 0 10 20); MouseUp;
              MouseDown (mkMouseEvent 2 30 40); MouseLeave] in
  isPanning sampleState = false
  /\ Forall idle evs
  /\ run gridConfig evs sampleState = sampleState.
Proof.
  intros evs.
  assert (Hp : isPanning sampleState = false) by reflexivity.
  assert (Hi : Forall idle evs).
  { subst evs. repeat apply List.Forall_cons; try apply List.Forall_nil;
      cbn; try exact I. discriminate. }
  split; [exact Hp |]. split; [exact Hi |].
  apply (idle_events_change_nothing gridConfig evs sampleState Hp Hi).
Defined.

Lemma pan_shifts_every_point_witness :
  isPanning pressedState = true
  /\ currentZoom (mousemove gridConfig (mkMouseEvent 0 130 90) pressedState)
     = currentZoom pressedState.
Proof.
  assert (Hp : isPanning pressedState = true) by reflexivity.
  split; [exact Hp |].
  destruct (pan_shifts_every_point gridConfig (mkMouseEvent 0 130 90) pressedState
              {| x := 1; y := 2 |} Hp) as (_ & Z & _).
  exact Z.
Defined.

Lemma drag_pans_by_net_displacement_witness :
  let path := [mkMouseEvent 0 110 100; mkMouseEvent 0 90 140; mkMouseEvent 0 130 90] in
  isPanning pressedState = true
  /\ currentZoom (run gridConfig (drag path) pressedState) = currentZoom pressedState.
Proof.
  intros path.
  assert (Hp : isPanning pressedState = true) by reflexivity.
  split; [exact Hp |].
  destruct (drag_pans_by_net_displacement gridConfig path pressedState Hp)
    as (_ & _ & Z).
  exact Z.
Defined.

Lemma zoom_in_then_out_witness :
  zoomsIn notchIn /\ zoomsOut notchOut
  /\ 0.05 <= 0.99 * 1 /\ 1.1 * 1 <= 20
  /\ zoomStep notchOut (zoomStep notchIn 1) == 0.99 * 1.
Proof.
  assert (H1 : zoomsIn notchIn) by (unfold zoomsIn, notchIn; cbn; lra).
  assert (H2 : zoomsOut notchOut) by (unfold zoomsOut, notchOut; cbn; lra).
  assert (H3 : 0.05 <= 0.99 * 1) by lra.
  assert (H4 : 1.1 * 1 <= 20) by lra.
  repeat (split; [assumption |]).
  apply (zoom_in_then_out notchIn notchOut 1 H1 H2 H3 H4).
Defined.

Lemma zoom_steps_monotone_witness :
  0.05 <= 1 <= 20.0 /\ zoomsIn notchIn /\ 1 <= zoomStep notchIn 1.
Proof.
  assert (H : 0.05 <= 1 <= 20.0) by (split; lra).
  assert (H1 : zoomsIn notchIn) by (unfold zoomsIn, notchIn; cbn; lra).
  split; [exact H |]. split; [exact H1 |].
  destruct (zoom_steps_monotone notchIn 1 H) as [I _].
  destruct (I H1) as [M _]. exact M.
Defined.

Lemma line_count_bounded_witness :
  2 <= baseCellSize gridConfig * currentZoom sampleState
  /\ inject_Z (Z.of_nat (List.length (visibleX gridConfig sampleState)))
     <= widthQ (canvas sampleState) / effectiveCellSize gridConfig sampleState + 13.
Proof.
  split; [exact sampleState_threshold |].
  destruct (line_count_bounded gridConfig sampleState sampleState_threshold)
    as (_ & C & _).
  exact C.
Defined.

Lemma each_line_once_witness :
  2 <= baseCellSize gridConfig * currentZoom sampleState
  /\ List.NoDup (emitted (generateGridVertices gridConfig sampleState)).
Proof.
  split; [exact sampleState_threshold |].
  apply (each_line_once gridConfig sampleState sampleState_threshold).
Defined.

Lemma vs_main_clip_range_witness :
  (1 <= width (canvas sampleState))%N /\ (1 <= height (canvas sampleState))%N
  /\ (-1 <= x (vs_main (frameUniforms gridConfig sampleState) {| x := 3; y := 2 |}) <= 1
      <-> 0 <= x (logicalToPixel gridConfig sampleState {| x := 3; y := 2 |})
          <= widthQ (canvas sampleState)).
Proof.
  assert (Hw : (1 <= width (canvas sampleState))%N) by (cbn; lia).
  assert (Hh : (1 <= height (canvas sampleState))%N) by (cbn; lia).
  split; [exact Hw |]. split; [exact Hh |].
  destruct (vs_main_clip_range gridConfig sampleState {| x := 3; y := 2 |} Hw Hh)
    as [X _].
  exact X.
Defined.

Lemma demo_never_degenerate_witness :
  let st := run gridConfig [Wheel (mkRect 0 0) notchOut]
              (initialState gridConfig (mkCanvas 800 600)) in
  0 <= x (logicalToPixel gridConfig st {| x := inject_Z 0; y := 0 |})
    <= widthQ (canvas st)
  /\ emittedVertical (lines st) 0.
Proof.
  intros st.
  assert (H : 0 <= x (logicalToPixel gridConfig st {| x := inject_Z 0; y := 0 |})
                <= widthQ (canvas st)).
  { split; apply Qle_bool_iff; vm_compute; reflexivity. }
  split; [exact H |].
  destruct (demo_never_degenerate (mkCanvas 800 600) [Wheel (mkRect 0 0) notchOut])
    as (_ & _ & V & _).
  apply (V 0%Z 0 H).
Defined.
End LineGridViewFacts.

(** ** The cell grid: reachable states and the shader *)

Module CellGridMoreFacts.
Import CellGrid CellGridFacts.
Local Open Scope Q_scope.

Lemma cellIndex_click (rect rect' : Rect) (e e' : ClickEvent) (st : State) :
  cellIndex rect e (click rect' e' st) = cellIndex rect e st.
Proof. reflexivity. Qed.

(** X13. Clicking twice at the same place restores the selection, and a
    click changes neither the scale, nor the camera, nor the canvas. *)
Theorem click_twice_restores (rect : Rect) (e : ClickEvent) (st : State) :
  selectedCells (click rect e (click rect e st)) = selectedCells st
  /\ scale (click rect e st) = scale st
  /\ cameraPos (click rect e st) = cameraPos st
  /\ canvas (click rect e st) = canvas st.
Proof.
  split; [| repeat split].
  apply set_eq. intros i.
  rewrite click_toggles, cellIndex_click.
  pose proof (click_toggles rect e st i) as T.
  destruct (decide (i = cellIndex rect e st)) as [Heq | Hne];
    destruct (decide (i ∈ selectedCells st)) as [Hin | Hout];
    unfold not in *; tauto.
Qed.

(** What no event changes. *)
Lemma step_keeps (ev : Event) (st : State) :
  canvas (step ev st) = canvas st /\ cameraPos (step ev st) = cameraPos st.
Proof. destruct ev; split; reflexivity. Qed.

Lemma run_keeps (evs : list Event) (st : State) :
  canvas (run evs st) = canvas st /\ cameraPos (run evs st) = cameraPos st.
Proof.
  revert st. induction evs as [| ev evs IH]; intros st.
  - split; reflexivity.
  - change (run (ev :: evs) st) with (run evs (step ev st)).
    destruct (IH (step ev st)) as [-> ->]. apply step_keeps.
Qed.

Lemma initialState_scaleInRange (c : Canvas) : scaleInRange (initialState c).
Proof. unfold scaleInRange. cbn. lra. Qed.

Lemma min_either (a b : Q) : JS.min a b = a \/ JS.min a b = b.
Proof. unfold JS.min. destruct (JS.leb a b); [now left | now right]. Qed.

Lemma canvas_side_positive (c : Canvas) :
  (1 <= width c)%N -> (1 <= height c)%N ->
  1 <= JS.min (widthQ c) (heightQ c).
Proof.
  intros Hw Hh. unfold widthQ, heightQ.
  destruct (min_either (inject_Z (Z.of_N (width c))) (inject_Z (Z.of_N (height c))))
    as [-> | ->]; change 1 with (inject_Z 1); rewrite <- Zle_Qle; lia.
Qed.

Lemma cellSize_positive (st : State) :
  (1 <= width (canvas st))%N -> (1 <= height (canvas st))%N ->
  scaleInRange st -> 0 < cellSize st.
Proof.
  intros Hw Hh [Hs _]. unfold cellSize, gridSize.
  assert (M := canvas_side_positive (canvas st) Hw Hh).
  change (inject_Z 10) with 10.
  assert (P : 0 < JS.min (widthQ (canvas st)) (heightQ (canvas st)) / 10).
  { apply Qlt_shift_div_l; lra. }
  apply Qmult_lt_0_compat; [exact P | lra].
Qed.

Lemma floor_nonneg (q : Q) : 0 <= q -> (0 <= JS.floor q)%Z.
Proof. intros H. apply JSFacts.floor_spec. exact H. Qed.

(** X14. After start-up on a canvas that is not empty, whatever wheel and
    click events arrive, the camera offset is still zero and the cell size
    is positive, so a click at a position with non-negative coordinates
    computes a non-negative column, row and cell index. *)
Theorem reachable_click_nonnegative
    (c : Canvas) (evs : list Event) (rect : Rect) (e : ClickEvent) :
  (1 <= width c)%N -> (1 <= height c)%N ->
  0 <= mouseX rect e -> 0 <= mouseY rect e ->
  let st := run evs (initialState c) in
  cameraPos st = {| x := 0; y := 0 |}
  /\ 0 < cellSize st
  /\ (0 <= gridX rect e st)%Z /\ (0 <= gridY rect e st)%Z
  /\ (0 <= cellIndex rect e st)%Z.
Proof.
  intros Hw Hh Hx Hy st.
  destruct (run_keeps evs (initialState c)) as [Hc Hp]. fold st in Hc, Hp.
  cbn [initialState canvas cameraPos] in Hc, Hp.
  assert (Hs : 0 < cellSize st).
  { apply cellSize_positive; rewrite ?Hc; try assumption.
    apply run_scaleInRange, initialState_scaleInRange. }
  assert (GX : (0 <= gridX rect e st)%Z).
  { unfold gridX. rewrite Hp. cbn [x]. apply floor_nonneg, LineGridViewFacts.quotient_nonneg; lra. }
  assert (GY : (0 <= gridY rect e st)%Z).
  { unfold gridY. rewrite Hp. cbn [y]. apply floor_nonneg, LineGridViewFacts.quotient_nonneg; lra. }
  repeat split; try assumption.
  unfold cellIndex, gridSize. lia.
Qed.

Lemma floor_below (q : Q) (n : Z) : q < inject_Z n -> (JS.floor q < n)%Z.
Proof.
  intros H. rewrite Zlt_Qlt.
  apply Qle_lt_trans with q; [apply Qfloor_le | exact H].
Qed.

(** X15. On a square canvas and at a scale of one or more, a click inside
    the canvas always selects a cell of the grid: with the camera at the
    origin its column and row are between 0 and 9 and its index between 0
    and 99. *)
Theorem square_canvas_click_in_grid (rect : Rect) (e : ClickEvent) (st : State) :
  cameraPos st = {| x := 0; y := 0 |} ->
  width (canvas st) = height (canvas st) ->
  1 <= scale st ->
  0 <= mouseX rect e < widthQ (canvas st) ->
  0 <= mouseY rect e < heightQ (canvas st) ->
  (0 <= gridX rect e st <= 9)%Z /\ (0 <= gridY rect e st <= 9)%Z
  /\ inGrid (cellIndex rect e st).
Proof.
  intros Hp Hsq Hs [Hx0 Hx1] [Hy0 Hy1].
  assert (HW : heightQ (canvas st) = widthQ (canvas st)).
  { unfold heightQ, widthQ. now rewrite Hsq. }
  rewrite HW in Hy1.
  assert (Wpos : 0 < widthQ (canvas st)) by lra.
  assert (Hc : widthQ (canvas st) / 10 <= cellSize st).
  { unfold cellSize, gridSize. rewrite HW.
    destruct (min_either (widthQ (canvas st)) (widthQ (canvas st))) as [-> | ->];
      change (inject_Z 10) with 10;
      assert (0 < widthQ (canvas st) / 10) by (apply Qlt_shift_div_l; lra);
      assert (widthQ (canvas st) / 10 * 1 <= widthQ (canvas st) / 10 * scale st)
        by (rewrite !(Qmult_comm (widthQ (canvas st) / 10));
            apply Qmult_le_compat_r; lra);
      lra. }
  assert (T : widthQ (canvas st) <= 10 * cellSize st).
  { assert (E : widthQ (canvas st) == 10 * (widthQ (canvas st) / 10)) by field.
    lra. }
  assert (Cpos : 0 < cellSize st).
  { assert (0 < widthQ (canvas st) / 10) by (apply Qlt_shift_div_l; lra). lra. }
  assert (B : forall m, 0 <= m < widthQ (canvas st) ->
                        (0 <= JS.floor (m / cellSize st) <= 9)%Z).
  { intros m [Hm0 Hm1]. split.
    - apply floor_nonneg, LineGridViewFacts.quotient_nonneg; lra.
    - cut (JS.floor (m / cellSize st) < 10)%Z; [lia |].
      apply floor_below. change (inject_Z 10) with 10.
      apply Qlt_shift_div_r; lra. }
  assert (GX : (0 <= gridX rect e st <= 9)%Z).
  { unfold gridX. rewrite Hp. cbn [x].
    assert (E : (mouseX rect e - 0) / cellSize st == mouseX rect e / cellSize st)
      by (field; lra).
    unfold JS.floor in *. rewrite (Qfloor_comp _ _ E). apply B. lra. }
  assert (GY : (0 <= gridY rect e st <= 9)%Z).
  { unfold gridY. rewrite Hp. cbn [y].
    assert (E : (mouseY rect e - 0) / cellSize st == mouseY rect e / cellSize st)
      by (field; lra).
    unfold JS.floor in *. rewrite (Qfloor_comp _ _ E). apply B. lra. }
  split; [exact GX |]. split; [exact GY |].
  unfold inGrid, cellIndex, gridSize. lia.
Qed.

(** X26. In the cell grid a wheel movement and the opposite one cancel:
    when the scale stays within [0.1, 5.0] on the way, scrolling by
    [deltaY] and then by [- deltaY] restores the scale, each step moving it
    by a ten-thousandth of the wheel distance. *)
Theorem wheel_and_back_restores (d : Q) (st : State) :
  0.1 <= scale st <= 5.0 ->
  0.1 <= scale st - d * 0.0001 <= 5.0 ->
  scale (wheel (mkWheelEvent d) st) == scale st - d * 0.0001
  /\ scale (wheel (mkWheelEvent (- d)) (wheel (mkWheelEvent d) st)) == scale st.
Proof.
  intros [H0 H1] [H2 H3].
  assert (E1 : scale (wheel (mkWheelEvent d) st) = scale st + d * -0.001 * 0.1).
  { unfold wheel. cbn [scale deltaY].
    apply LineGridViewFacts.clamp_id; lra. }
  assert (E2 : scale (wheel (mkWheelEvent (- d)) (wheel (mkWheelEvent d) st))
               = scale st + d * -0.001 * 0.1 + - d * -0.001 * 0.1).
  { unfold wheel at 1. cbn [scale deltaY]. rewrite E1.
    apply LineGridViewFacts.clamp_id; lra. }
  rewrite E2, E1. split; ring.
Qed.

Lemma wheel_and_back_restores_witness :
  0.1 <= scale squareState <= 5.0
  /\ 0.1 <= scale squareState - 300 * 0.0001 <= 5.0
  /\ scale (wheel (mkWheelEvent (- (300))) (wheel (mkWheelEvent 300) squareState))
     == scale squareState.
Proof.
  assert (H1 : 0.1 <= scale squareState <= 5.0) by (cbn; split; lra).
  assert (H2 : 0.1 <= scale squareState - 300 * 0.0001 <= 5.0) by (cbn; split; lra).
  split; [exact H1 |]. split; [exact H2 |].
  destruct (wheel_and_back_restores 300 squareState H1 H2) as [_ R].
  exact R.
Defined.

Lemma reachable_click_nonnegative_witness :
  let evs := [Wheel (mkWheelEvent 300); Click (mkRect 0 0) (mkClickEvent 5 5)] in
  let rect := mkRect 0 0 in
  let e := mkClickEvent 25 45 in
  (1 <= width (mkCanvas 200 200))%N /\ (1 <= height (mkCanvas 200 200))%N
  /\ 0 <= mouseX rect e /\ 0 <= mouseY rect e
  /\ (0 <= cellIndex rect e (run evs (initialState (mkCanvas 200 200))))%Z.
Proof.
  intros evs rect e.
  assert (Hw : (1 <= width (mkCanvas 200 200))%N) by (cbn; lia).
  assert (Hh : (1 <= height (mkCanvas 200 200))%N) by (cbn; lia).
  assert (Hx : 0 <= mouseX rect e) by (apply Qle_bool_iff; reflexivity).
  assert (Hy : 0 <= mouseY rect e) by (apply Qle_bool_iff; reflexivity).
  repeat (split; [assumption |]).
  destruct (reachable_click_nonnegative (mkCanvas 200 200) evs rect e Hw Hh Hx Hy)
    as (_ & _ & _ & _ & I).
  exact I.
Defined.

Lemma square_canvas_click_in_grid_witness :
  let rect := mkRect 0 0 in
  let e := mkClickEvent 25 45 in
  cameraPos squareState = {| x := 0; y := 0 |}
  /\ width (canvas squareState) = height (canvas squareState)
  /\ 1 <= scale squareState
  /\ 0 <= mouseX rect e < widthQ (canvas squareState)
  /\ 0 <= mouseY rect e < heightQ (canvas squareState)
  /\ inGrid (cellIndex rect e squareState).
Proof.
  intros rect e.
  assert (H1 : cameraPos squareState = {| x := 0; y := 0 |}) by reflexivity.
  assert (H2 : width (canvas squareState) = height (canvas squareState))
    by reflexivity.
  assert (H3 : 1 <= scale squareState) by (apply Qle_bool_iff; reflexivity).
  assert (H4 : 0 <= mouseX rect e < widthQ (canvas squareState)).
  { split; [apply Qle_bool_iff; reflexivity | reflexivity]. }
  assert (H5 : 0 <= mouseY rect e < heightQ (canvas squareState)).
  { split; [apply Qle_bool_iff; reflexivity | reflexivity]. }
  repeat (split; [assumption |]).
  destruct (square_canvas_click_in_grid rect e squareState H1 H2 H3 H4 H5)
    as (_ & _ & I).
  exact I.
Defined.
End CellGridMoreFacts.

Module CellShaderFacts.
Import CellShader.
Local Open Scope Q_scope.

Lemma instance_column_row (g col row : N) :
  g <> 0%N -> (col < g)%N ->
  u32mod (row * g + col) g = col /\ u32div (row * g + col) g = row.
Proof.
  intros Hg Hc. unfold u32mod, u32div.
  destruct (N.eqb_spec g 0) as [E | _]; [contradiction |].
  split.
  - rewrite N.add_comm, N.Div0.mod_add. now apply N.mod_small.
  - rewrite N.div_add_l by exact Hg. rewrite (N.div_small col g Hc). lia.
Qed.

Lemma vertexMain_position (u : GridUniforms) (corner : Vec2) (col row : N) :
  gridSize u <> 0%N -> (col < gridSize u)%N ->
  let out := vertexMain u {| position := corner; instance := instanceOf u col row |} in
  x (outPosition out)
  == (f32 col + 0.95 * x corner) * (2 * cellSize u) - 1 + x (cameraPos u)
  /\ y (outPosition out)
     == (f32 row + 0.95 * y corner) * (2 * cellSize u) - 1 + y (cameraPos u).
Proof.
  intros Hg Hc. cbn zeta. unfold vertexMain, instanceOf.
  cbn [instance position outPosition x y].
  destruct (instance_column_row (gridSize u) col row Hg Hc) as [-> ->].
  unfold cellSize. generalize (2.0 / f32 (gridSize u) * scale u). intros cs.
  split; ring.
Qed.

(** X16. The vertex shader lays the instances out as the click handler
    numbers the cells, [row * gridSize + column]: for a grid size that is
    not zero, the instance of a column and a row is drawn with its corner
    [(u, v)] at [((column + 0.95 u) * 2 cellSize - 1, (row + 0.95 v) * 2
    cellSize - 1)] plus the camera offset, and it carries its own index. *)
Theorem vertexMain_layout (u : GridUniforms) (corner : Vec2) (col row : N) :
  gridSize u <> 0%N -> (col < gridSize u)%N ->
  let out := vertexMain u {| position := corner; instance := instanceOf u col row |} in
  cellIndex out = (row * gridSize u + col)%N
  /\ x (outPosition out)
     == (f32 col + 0.95 * x corner) * (2 * cellSize u) - 1 + x (cameraPos u)
  /\ y (outPosition out)
     == (f32 row + 0.95 * y corner) * (2 * cellSize u) - 1 + y (cameraPos u).
Proof.
  intros Hg Hc. split; [reflexivity |].
  apply (vertexMain_position u corner col row Hg Hc).
Qed.




Lemma vertexMain_layout_witness :
  gridSize sampleUniforms <> 0%N /\ (3 < gridSize sampleUniforms)%N
  /\ cellIndex (vertexMain sampleUniforms
                  {| position := {| x := 0; y := 0 |};
                     instance := instanceOf sampleUniforms 3 4 |})
     = (4 * gridSize sampleUniforms + 3)%N.
Proof.
  assert (Hg : gridSize sampleUniforms <> 0%N) by discriminate.
  assert (Hc : (3 < gridSize sampleUniforms)%N) by reflexivity.
  split; [exact Hg |]. split; [exact Hc |].
  destruct (vertexMain_layout sampleUniforms {| x := 0; y := 0 |} 3 4 Hg Hc)
    as [I _].
  exact I.
Defined.

End CellShaderFacts.

(** ** The static grid *)

Module TestDrawFacts.
Import TestDraw.
Local Open Scope Q_scope.

Lemma insert_at_end (pre rest : list Q) (old v : Q) :
  <[List.length pre := v]> (pre ++ old :: rest) = pre ++ v :: rest.
Proof.
  induction pre as [| a pre IH]; [reflexivity |].
  cbn [List.length app].
  change (a :: <[List.length pre := v]> (pre ++ old :: rest) = a :: pre ++ v :: rest).
  now rewrite IH.
Qed.

Lemma put_filled (v : Q) (pre : list Q) (k : nat) (c : Cursor) :
  filled pre (S k) c -> filled (pre ++ [v]) k (put v c).
Proof.
  intros [Hv Ho]. unfold filled, put. cbn [vertices offset].
  rewrite Hv, Ho. cbn [repeat]. rewrite insert_at_end, <- app_assoc.
  split; [reflexivity |]. rewrite length_app. cbn. lia.
Qed.

Lemma verticalBody_filled (cs hs : Q) (i : Z) (pre : list Q) (k : nat) (c : Cursor) :
  filled pre (6 + k) c ->
  filled (pre ++ verticalVertices cs hs i) k (verticalBody cs hs i c).
Proof.
  intros H. unfold verticalBody, verticalVertices. cbn zeta.
  cbn [Nat.add] in H.
  apply (put_filled (inject_Z i * cs - hs)) in H.
  apply (put_filled (- hs)) in H. apply (put_filled 0) in H.
  apply (put_filled (inject_Z i * cs - hs)) in H.
  apply (put_filled hs) in H. apply (put_filled 0) in H.
  repeat rewrite <- app_assoc in H. exact H.
Qed.

Lemma horizontalBody_filled (cs hs : Q) (i : Z) (pre : list Q) (k : nat) (c : Cursor) :
  filled pre (6 + k) c ->
  filled (pre ++ horizontalVertices cs hs i) k (horizontalBody cs hs i c).
Proof.
  intros H. unfold horizontalBody, horizontalVertices. cbn zeta.
  cbn [Nat.add] in H.
  apply (put_filled (- hs)) in H.
  apply (put_filled (inject_Z i * cs - hs)) in H. apply (put_filled 0) in H.
  apply (put_filled hs) in H.
  apply (put_filled (inject_Z i * cs - hs)) in H. apply (put_filled 0) in H.
  repeat rewrite <- app_assoc in H. exact H.
Qed.

(** A loop whose body writes six numbers writes those of its indices,
    one after the other. *)
Lemma forLoop_filled (body : Z -> Cursor -> Cursor) (six : Z -> list Q) :
  (forall i pre k c, filled pre (6 + k) c -> filled (pre ++ six i) k (body i c)) ->
  forall (n : nat) (lo : Z) (pre : list Q) (k : nat) (c : Cursor),
    filled pre (6 * n + k) c ->
    filled (pre ++ concat (map six (LineGrid.zrange n lo))) k
           (LineGrid.forLoop n lo body c).
Proof.
  intros Hbody. induction n as [| n IH]; intros lo pre k c H.
  - cbn. now rewrite app_nil_r.
  - cbn [LineGrid.forLoop LineGrid.zrange map concat].
    rewrite app_assoc. apply IH. apply Hbody.
    replace (6 + (6 * n + k))%nat with (6 * S n + k)%nat by lia. exact H.
Qed.

Lemma createGridBuffers_content (gridSizeArg : option N) (cellSizeArg : option Q) :
  let n := N.to_nat (default 10%N gridSizeArg + 1) in
  let cellSize := default 1 cellSizeArg in
  let halfSize := inject_Z (Z.of_N (default 10%N gridSizeArg)) * cellSize / 2 in
  let b := createGridBuffers gridSizeArg cellSizeArg in
  filled (concat (map (verticalVertices cellSize halfSize) (LineGrid.zrange n 0))
          ++ concat (map (horizontalVertices cellSize halfSize) (LineGrid.zrange n 0)))
         0 {| vertices := vertexData b; offset := finalOffset b |}.
Proof.
  cbn zeta. unfold createGridBuffers. cbn [vertexData finalOffset].
  set (g := default 10%N gridSizeArg).
  set (cs := default 1 cellSizeArg).
  set (hs := inject_Z (Z.of_N g) * cs / 2).
  unfold LineGrid.forRange.
  replace (Z.to_nat (Z.of_N g - 0 + 1)) with (N.to_nat (g + 1)) by lia.
  replace (Z.to_nat ((Z.of_N g + 1) * 2 * 2 * 3))
    with (6 * N.to_nat (g + 1) + (6 * N.to_nat (g + 1) + 0))%nat by lia.
  match goal with
  | |- filled _ _ {| vertices := vertices ?c; offset := offset ?c |} =>
      replace {| vertices := vertices c; offset := offset c |} with c
        by (destruct c; reflexivity)
  end.
  apply (forLoop_filled _ _ (horizontalBody_filled cs hs)).
  apply (forLoop_filled _ _ (verticalBody_filled cs hs) _ _ []).
  split; reflexivity.
Qed.

Lemma length_six (six : Z -> list Q) (l : list Z) :
  (forall i, List.length (six i) = 6%nat) ->
  List.length (concat (map six l)) = (6 * List.length l)%nat.
Proof.
  intros H. induction l as [| i l IH]; cbn [map concat List.length]; [lia |].
  rewrite length_app, H, IH. lia.
Qed.

(** X18. [createGridBuffers] fills its array exactly: the two loops
    write the six coordinates of each of the [gridSize + 1] vertical lines
    and then of each of the horizontal ones, the running offset ends at the
    length of the array, three numbers for each of the
    [4 * (gridSize + 1)] vertices counted, so no write falls outside the
    array and no element keeps its initial zero by omission. *)
Theorem createGridBuffers_fills (gridSizeArg : option N) (cellSizeArg : option Q) :
  let gridSize := default 10%N gridSizeArg in
  let n := N.to_nat (gridSize + 1) in
  let cellSize := default 1 cellSizeArg in
  let halfSize := inject_Z (Z.of_N gridSize) * cellSize / 2 in
  let b := createGridBuffers gridSizeArg cellSizeArg in
  vertexData b
  = concat (map (verticalVertices cellSize halfSize) (LineGrid.zrange n 0))
    ++ concat (map (horizontalVertices cellSize halfSize) (LineGrid.zrange n 0))
  /\ finalOffset b = List.length (vertexData b)
  /\ Z.of_nat (List.length (vertexData b)) = (vertexCount b * 3)%Z
  /\ vertexCount b = (4 * (Z.of_N gridSize + 1))%Z
  /\ vertexBufferSize b = (48 * (Z.of_N gridSize + 1))%Z.
Proof.
  cbn zeta.
  destruct (createGridBuffers_content gridSizeArg cellSizeArg) as [Hv Ho].
  cbn zeta in Hv, Ho. cbn [vertices offset repeat] in Hv, Ho.
  rewrite app_nil_r in Hv.
  assert (L : List.length (vertexData (createGridBuffers gridSizeArg cellSizeArg))
              = (12 * N.to_nat (default 10%N gridSizeArg + 1))%nat).
  { rewrite Hv, length_app, !length_six by reflexivity.
    rewrite LineGridViewFacts.length_zrange. lia. }
  split; [exact Hv |]. split; [now rewrite Ho, Hv |].
  assert (C : vertexCount (createGridBuffers gridSizeArg cellSizeArg)
              = (4 * (Z.of_N (default 10%N gridSizeArg) + 1))%Z).
  { cbn [createGridBuffers vertexCount]. lia. }
  split; [rewrite L, C; lia |]. split; [exact C |].
  assert (S : vertexBufferSize (createGridBuffers gridSizeArg cellSizeArg)
              = (Z.of_nat (List.length
                   (vertexData (createGridBuffers gridSizeArg cellSizeArg))) * 4)%Z)
    by reflexivity.
  rewrite S, L. lia.
Qed.

(** A vertex of the square of half side [h], in the plane [z = 0]. *)
Lemma points_six (a b c d e f : Q) (rest : list Q) :
  points ([a; b; c; d; e; f] ++ rest)
  = mkVec3 a b c :: mkVec3 d e f :: points rest.
Proof. reflexivity. Qed.

Lemma line_coordinate (g : N) (cs : Q) (i : Z) :
  0 <= cs -> (0 <= i <= Z.of_N g)%Z ->
  let half := inject_Z (Z.of_N g) * cs / 2 in
  - half <= inject_Z i * cs - half <= half.
Proof.
  intros Hcs [Hi0 Hig]. cbn zeta.
  assert (A : 0 <= inject_Z i * cs).
  { apply Qmult_le_0_compat; [| exact Hcs].
    change 0 with (inject_Z 0). now rewrite <- Zle_Qle. }
  assert (B : inject_Z i * cs <= inject_Z (Z.of_N g) * cs).
  { apply Qmult_le_compat_r; [| exact Hcs]. now rewrite <- Zle_Qle. }
  assert (E : inject_Z (Z.of_N g) * cs
              == 2 * (inject_Z (Z.of_N g) * cs / 2)) by field.
  split; lra.
Qed.

Lemma half_nonneg (g : N) (cs : Q) :
  0 <= cs -> 0 <= inject_Z (Z.of_N g) * cs / 2.
Proof.
  intros Hcs.
  assert (A : 0 <= inject_Z (Z.of_N g) * cs).
  { apply Qmult_le_0_compat; [| exact Hcs].
    change 0 with (inject_Z 0). rewrite <- Zle_Qle. lia. }
  apply Qle_shift_div_l; lra.
Qed.

Lemma lines_in_square (g : N) (cs : Q) (six : Z -> list Q) (l : list Z) (P : Vec3 -> Prop) :
  (forall i, In i l -> Forall P (points (six i))) ->
  (forall i, List.length (six i) = 6%nat) ->
  forall rest, Forall P (points rest) ->
  Forall P (points (concat (map six l) ++ rest)).
Proof.
  intros HP H6 rest Hrest. induction l as [| i l IH]; cbn [map concat app].
  - exact Hrest.
  - rewrite <- app_assoc.
    assert (Hi := HP i (or_introl eq_refl)). assert (L := H6 i).
    destruct (six i) as [| a [| b [| c [| d [| e [| f [| ? ?]]]]]]];
      try discriminate L.
    rewrite points_six. cbn in Hi.
    apply Forall_cons_iff in Hi. destruct Hi as [H1 Hi].
    apply Forall_cons_iff in Hi. destruct Hi as [H2 _].
    apply List.Forall_cons; [exact H1 |]. apply List.Forall_cons; [exact H2 |].
    apply IH. intros j Hj. apply HP. now right.
Qed.

(** X19. For a cell size that is not negative, every vertex
    [createGridBuffers] writes lies in the plane [z = 0], within the square
    of half side [gridSize * cellSize / 2] centred at the origin. *)
Theorem createGridBuffers_in_square (gridSizeArg : option N) (cellSizeArg : option Q) :
  0 <= default 1 cellSizeArg ->
  let halfSize :=
    inject_Z (Z.of_N (default 10%N gridSizeArg)) * default 1 cellSizeArg / 2 in
  Forall (fun p => - halfSize <= px p <= halfSize
                   /\ - halfSize <= py p <= halfSize
                   /\ pz p == 0)
         (points (vertexData (createGridBuffers gridSizeArg cellSizeArg))).
Proof.
  intros Hcs halfSize.
  destruct (createGridBuffers_content gridSizeArg cellSizeArg) as [Hv _].
  cbn zeta in Hv. cbn [vertices repeat] in Hv. rewrite app_nil_r in Hv.
  rewrite Hv. fold halfSize.
  assert (Hh := half_nonneg (default 10%N gridSizeArg) _ Hcs). fold halfSize in Hh.
  assert (R : forall i,
             In i (LineGrid.zrange (N.to_nat (default 10%N gridSizeArg + 1)) 0) ->
             - halfSize <= inject_Z i * default 1 cellSizeArg - halfSize <= halfSize).
  { intros i Hi. apply LineGridFacts.In_zrange in Hi.
    apply (line_coordinate (default 10%N gridSizeArg) _ i Hcs). lia. }
  rewrite <- (app_nil_r (concat (map (horizontalVertices _ _) _))).
  apply (lines_in_square (default 10%N gridSizeArg) (default 1 cellSizeArg)).
  - intros i Hi. specialize (R i Hi). cbn.
    repeat apply List.Forall_cons; try apply List.Forall_nil; cbn [px py pz];
      repeat split; try lra; reflexivity.
  - reflexivity.
  - apply (lines_in_square (default 10%N gridSizeArg) (default 1 cellSizeArg)).
    + intros i Hi. specialize (R i Hi). cbn.
      repeat apply List.Forall_cons; try apply List.Forall_nil; cbn [px py pz];
        repeat split; try lra; reflexivity.
    + reflexivity.
    + apply List.Forall_nil.
Qed.

Lemma canvas_sides_positive (canvas : Canvas) :
  (1 <= width canvas)%N -> (1 <= height canvas)%N ->
  0 < widthQ canvas /\ 0 < heightQ canvas.
Proof.
  intros Hw Hh. unfold widthQ, heightQ. change 0 with (inject_Z 0).
  rewrite <- !Zlt_Qlt. lia.
Qed.

(** X20. On a canvas that is not empty, the matrix of [renderGrid] maps
    a vertex [(x, y, z)] to the clip position
    [(2 x / width, 2 y / height, z, 1)]: world units are pixels, the origin
    is the centre of the canvas, and a vertex is within the horizontal
    clip range exactly when [-width / 2 <= x <= width / 2], likewise
    vertically. *)
Theorem projection_maps_pixels (canvas : Canvas) (position : Vec3) :
  (1 <= width canvas)%N -> (1 <= height canvas)%N ->
  let clip := vs_main (projectionMatrix canvas) position in
  cx clip == 2 * px position / widthQ canvas
  /\ cy clip == 2 * py position / heightQ canvas
  /\ cz clip == pz position
  /\ cw clip == 1
  /\ (-1 <= cx clip <= 1
      <-> - widthQ canvas / 2 <= px position <= widthQ canvas / 2)
  /\ (-1 <= cy clip <= 1
      <-> - heightQ canvas / 2 <= py position <= heightQ canvas / 2).
Proof.
  intros Hw Hh clip. destruct (canvas_sides_positive canvas Hw Hh) as [Wpos Hpos].
  assert (X : cx clip == 2 * px position / widthQ canvas).
  { subst clip. unfold vs_main, mulMatVec, entry, projectionMatrix.
    cbn [nth cx cy cz cw Nat.mul Nat.add]. field. lra. }
  assert (Y : cy clip == 2 * py position / heightQ canvas).
  { subst clip. unfold vs_main, mulMatVec, entry, projectionMatrix.
    cbn [nth cx cy cz cw Nat.mul Nat.add]. field. lra. }
  assert (Zc : cz clip == pz position).
  { subst clip. unfold vs_main, mulMatVec, entry, projectionMatrix.
    cbn [nth cx cy cz cw Nat.mul Nat.add]. field. }
  assert (Wc : cw clip == 1).
  { subst clip. unfold vs_main, mulMatVec, entry, projectionMatrix.
    cbn [nth cx cy cz cw Nat.mul Nat.add]. field. }
  split; [exact X |]. split; [exact Y |]. split; [exact Zc |]. split; [exact Wc |].
  rewrite X, Y.
  destruct (LineGridViewFacts.quotient_bounds (2 * px position) (-1) 1 _ Wpos)
    as [X0 X1].
  destruct (LineGridViewFacts.quotient_bounds (2 * py position) (-1) 1 _ Hpos)
    as [Y0 Y1].
  assert (EW : widthQ canvas == 2 * (widthQ canvas / 2)) by field.
  assert (EW' : - widthQ canvas / 2 == - (widthQ canvas / 2)) by field.
  assert (EH : heightQ canvas == 2 * (heightQ canvas / 2)) by field.
  assert (EH' : - heightQ canvas / 2 == - (heightQ canvas / 2)) by field.
  rewrite X0, X1, Y0, Y1, EW', EH'. split; split; intros [A B]; split; lra.
Qed.

Lemma createGridBuffers_in_square_witness :
  0 <= default 1 (@None Q)
  /\ Forall (fun p => - (inject_Z 10 * 1 / 2) <= px p <= inject_Z 10 * 1 / 2
                      /\ - (inject_Z 10 * 1 / 2) <= py p <= inject_Z 10 * 1 / 2
                      /\ pz p == 0)
            (points (vertexData (createGridBuffers None None))).
Proof.
  assert (H : 0 <= default 1 (@None Q)) by (cbn; lra).
  split; [exact H |].
  apply (createGridBuffers_in_square None None H).
Defined.

Lemma projection_maps_pixels_witness :
  (1 <= width (mkCanvas 800 600))%N /\ (1 <= height (mkCanvas 800 600))%N
  /\ cx (vs_main (projectionMatrix (mkCanvas 800 600)) (mkVec3 400 (-300) 0))
     == 2 * 400 / widthQ (mkCanvas 800 600).
Proof.
  assert (Hw : (1 <= width (mkCanvas 800 600))%N) by (cbn; lia).
  assert (Hh : (1 <= height (mkCanvas 800 600))%N) by (cbn; lia).
  split; [exact Hw |]. split; [exact Hh |].
  destruct (projection_maps_pixels (mkCanvas 800 600) (mkVec3 400 (-300) 0) Hw Hh)
    as [X _].
  exact X.
Defined.
End TestDrawFacts.

(** ** The triangle demos *)

Module TriangleFacts.
Import Triangle.
Local Open Scope Q_scope.

Lemma toUnsignedLong_clamped (limit : N) (size : Q) :
  (1 <= limit < 2 ^ 31)%N ->
  (1 <= toUnsignedLong (JS.max 1 (JS.min size (inject_Z (Z.of_N limit)))) <= limit)%N.
Proof.
  intros [Hl Hu].
  assert (L1 : 1 <= inject_Z (Z.of_N limit)).
  { change 1 with (inject_Z 1). rewrite <- Zle_Qle. lia. }
  destruct (JSFacts.clamp_range 1 (inject_Z (Z.of_N limit)) size L1) as [Hlo Hhi].
  set (v := JS.max 1 (JS.min size (inject_Z (Z.of_N limit)))) in *.
  unfold toUnsignedLong, truncate.
  assert (N0 : JS.ltb v 0 = false) by (apply JSFacts.ltb_ge; lra).
  rewrite N0.
  assert (F1 : (1 <= JS.floor v)%Z) by (apply JSFacts.floor_spec; exact Hlo).
  assert (F2 : (JS.floor v <= Z.of_N limit)%Z) by (apply JSFacts.floor_le; exact Hhi).
  assert (Hu' : (Z.of_N limit < 2 ^ 31)%Z).
  { change (2 ^ 31)%Z with (Z.of_N (2 ^ 31)). lia. }
  assert (P : (2 ^ 31 < 2 ^ 32)%Z) by reflexivity.
  rewrite Z.mod_small by lia. lia.
Qed.

(** X21. The resize observer of the triangle demos never makes the
    canvas empty nor larger than the device allows: for a texture limit
    between 1 and 2^31 - 1, whatever sizes are reported, also zero or
    negative ones, both sides of the canvas end between 1 and the limit. *)
Theorem observeResize_within_limit (limit : N) (inlineSize blockSize : Q) :
  (1 <= limit < 2 ^ 31)%N ->
  let canvas := observeResize limit inlineSize blockSize in
  (1 <= width canvas <= limit)%N /\ (1 <= height canvas <= limit)%N.
Proof.
  intros H. cbn zeta. unfold observeResize. cbn [width height].
  split; apply toUnsignedLong_clamped; exact H.
Qed.

Lemma u32_shift (a : Q) :
  0 <= a -> a + 16 < inject_Z (2 ^ 32) ->
  u32 (a + 16) = (u32 a + 16)%N /\ (u32 a + 16 < 2 ^ 32)%N.
Proof.
  intros H0 H1. unfold u32.
  rewrite (proj2 (JSFacts.ltb_ge a 0) H0).
  rewrite (proj2 (JSFacts.ltb_ge (a + 16) 0)) by lra.
  assert (F0 : (0 <= JS.floor a)%Z) by (apply JSFacts.floor_spec; exact H0).
  assert (E : JS.floor (a + 16) = (JS.floor a + 16)%Z).
  { change 16 with (- inject_Z (-16)).
    assert (E : a + - inject_Z (-16) == a - inject_Z (-16)) by ring.
    unfold JS.floor. rewrite (Qfloor_comp _ _ E).
    fold (JS.floor (a - inject_Z (-16))). rewrite JSFacts.floor_sub_Z.
    unfold JS.floor. lia. }
  assert (F1 : (JS.floor (a + 16) < 2 ^ 32)%Z).
  { rewrite Zlt_Qlt. apply Qle_lt_trans with (a + 16); [apply Qfloor_le | exact H1]. }
  rewrite E in *. rewrite !Z.min_l by lia.
  change (2 ^ 32)%N with (Z.to_N (2 ^ 32)). lia.
Qed.

Lemma parity_flips (a b : N) :
  (a + 16 < 2 ^ 32)%N -> (b < 2 ^ 32)%N ->
  ((((a + 16) / 16 + b / 16) mod 2 ^ 32) mod 2 =? 1)%N
  = negb ((((a / 16 + b / 16) mod 2 ^ 32) mod 2 =? 1)%N).
Proof.
  intros Ha Hb.
  assert (E : ((a + 16) / 16 = a / 16 + 1)%N).
  { replace (a + 16)%N with (a + 1 * 16)%N by lia.
    now rewrite N.div_add. }
  rewrite E.
  assert (A : (a / 16 < 2 ^ 28)%N).
  { apply N.Div0.div_lt_upper_bound. change (16 * 2 ^ 28)%N with (2 ^ 32)%N. lia. }
  assert (B : (b / 16 < 2 ^ 28)%N).
  { apply N.Div0.div_lt_upper_bound. change (16 * 2 ^ 28)%N with (2 ^ 32)%N. lia. }
  change (2 ^ 28)%N with 268435456%N in A, B.
  change (2 ^ 32)%N with 4294967296%N.
  rewrite (N.mod_small (a / 16 + 1 + b / 16) 4294967296) by lia.
  rewrite (N.mod_small (a / 16 + b / 16) 4294967296) by lia.
  replace (a / 16 + 1 + b / 16)%N with (a / 16 + b / 16 + 1)%N by lia.
  generalize (a / 16 + b / 16)%N. intros n.
  assert (M := N.mod_upper_bound n 2 ltac:(discriminate)).
  assert (D := N.Div0.div_mod n 2).
  assert (M' := N.mod_upper_bound (n + 1) 2 ltac:(discriminate)).
  assert (D' := N.Div0.div_mod (n + 1) 2).
  destruct (N.eqb_spec ((n + 1) mod 2) 1), (N.eqb_spec (n mod 2) 1);
    cbn [negb]; try reflexivity; exfalso; clear Ha Hb E A B;
    generalize dependent (n / 2)%N; generalize dependent ((n + 1) / 2)%N;
    generalize dependent (n mod 2)%N; generalize dependent ((n + 1) mod 2)%N;
    intros; lia.
Qed.

Lemma u32_below (a : Q) : (u32 a < 2 ^ 32)%N.
Proof.
  unfold u32. destruct (JS.ltb a 0); [reflexivity |].
  change (2 ^ 32)%N with (Z.to_N (2 ^ 32)).
  assert (H := Z.le_min_r (JS.floor a) (2 ^ 32 - 1)). lia.
Qed.

(** X22. The checkerboard alternates: for a pixel position with
    non-negative coordinates below 2^32 - 16, the pixel sixteen further to
    the right and the pixel sixteen further down get the other colour, so
    the pixel thirty-two further gets the same one. *)
Theorem checkerboard_alternates (pixelX pixelY : Q) :
  0 <= pixelX -> 0 <= pixelY ->
  pixelX + 32 < inject_Z (2 ^ 32) -> pixelY + 16 < inject_Z (2 ^ 32) ->
  checker (pixelX + 16) pixelY = negb (checker pixelX pixelY)
  /\ checker pixelX (pixelY + 16) = negb (checker pixelX pixelY)
  /\ checker (pixelX + 16 + 16) pixelY = checker pixelX pixelY
  /\ fs (pixelX + 16) pixelY <> fs pixelX pixelY.
Proof.
  intros Hx Hy Hx32 Hy16.
  assert (Hx16 : pixelX + 16 < inject_Z (2 ^ 32)) by lra.
  assert (Hx32' : pixelX + 16 + 16 < inject_Z (2 ^ 32)) by lra.
  destruct (u32_shift pixelX Hx Hx16) as [EX BX].
  destruct (u32_shift pixelY Hy Hy16) as [EY BY].
  destruct (u32_shift (pixelX + 16) ltac:(lra) Hx32') as [EX2 BX2].
  assert (H1 : checker (pixelX + 16) pixelY = negb (checker pixelX pixelY)).
  { unfold checker. cbn zeta. rewrite EX.
    apply parity_flips; [exact BX | apply u32_below]. }
  assert (H2 : checker pixelX (pixelY + 16) = negb (checker pixelX pixelY)).
  { unfold checker. cbn zeta. rewrite EY.
    rewrite (N.add_comm (u32 pixelX / 16)), (N.add_comm (u32 pixelX / 16)).
    apply parity_flips; [exact BY | apply u32_below]. }
  assert (H3 : checker (pixelX + 16 + 16) pixelY = checker pixelX pixelY).
  { transitivity (negb (checker (pixelX + 16) pixelY)).
    - unfold checker. cbn zeta. rewrite EX2.
      apply parity_flips; [exact BX2 | apply u32_below].
    - rewrite H1. apply negb_involutive. }
  split; [exact H1 |]. split; [exact H2 |]. split; [exact H3 |].
  unfold fs. rewrite H1. destruct (checker pixelX pixelY); discriminate.
Qed.

(** X23. [rand] stays within its bounds: for a random number in
    [0, 1) and [min < max], [rand(min, max)] lies in [min, max),
    [rand(max - min)] in [0, max - min), and [rand()] in [0, 1). *)
Theorem rand_within_bounds (random min max : Q) (ignored : option Q) :
  0 <= random < 1 -> min < max ->
  min <= rand random (Some min) (Some max) < max
  /\ 0 <= rand random (Some (max - min)) None < max - min
  /\ 0 <= rand random None ignored < 1.
Proof.
  intros [H0 H1] Hlt. unfold rand.
  assert (A : 0 <= random * (max - min)).
  { apply Qmult_le_0_compat; lra. }
  assert (B : random * (max - min) < 1 * (max - min)).
  { apply Qmult_lt_compat_r; lra. }
  repeat split; lra.
Qed.

Lemma observeResize_within_limit_witness :
  (1 <= 8192 < 2 ^ 31)%N
  /\ (1 <= width (observeResize 8192 0 100000) <= 8192)%N.
Proof.
  assert (H : (1 <= 8192 < 2 ^ 31)%N) by (split; reflexivity || discriminate).
  split; [exact H |].
  destruct (observeResize_within_limit 8192 0 100000 H) as [W _].
  exact W.
Defined.

Lemma checkerboard_alternates_witness :
  0 <= 0.5 /\ 0 <= 0.5
  /\ 0.5 + 32 < inject_Z (2 ^ 32) /\ 0.5 + 16 < inject_Z (2 ^ 32)
  /\ checker (0.5 + 16) 0.5 = negb (checker 0.5 0.5).
Proof.
  assert (H1 : 0 <= 0.5) by lra.
  assert (H2 : 0.5 + 32 < inject_Z (2 ^ 32)) by reflexivity.
  assert (H3 : 0.5 + 16 < inject_Z (2 ^ 32)) by reflexivity.
  split; [exact H1 |]. split; [exact H1 |]. split; [exact H2 |]. split; [exact H3 |].
  destruct (checkerboard_alternates 0.5 0.5 H1 H1 H2 H3) as [A _].
  exact A.
Defined.

Lemma rand_within_bounds_witness :
  0 <= 0.5 < 1 /\ 0.2 < 0.5
  /\ 0.2 <= rand 0.5 (Some 0.2) (Some 0.5) < 0.5.
Proof.
  assert (H : 0 <= 0.5 < 1) by (split; lra).
  assert (L : 0.2 < 0.5) by lra.
  split; [exact H |]. split; [exact L |].
  destruct (rand_within_bounds 0.5 0.2 0.5 None H L) as [R _].
  exact R.
Defined.
End TriangleFacts.

(** ** The compute pass *)

Module ComputeFacts.
Import Compute.
Local Open Scope Q_scope.

Lemma computeSomething_lookup (id i : nat) (data : list Q) :
  computeSomething id data !! i
  = if decide (i = id) then (fun v => v * 2.0) <$> data !! i else data !! i.
Proof.
  unfold computeSomething. destruct (data !! id) as [v |] eqn:E.
  - destruct (decide (i = id)) as [-> | Hne].
    + rewrite list_lookup_insert_eq by (eapply lookup_lt_Some; exact E).
      now rewrite E.
    + now rewrite list_lookup_insert_ne by congruence.
  - destruct (decide (i = id)) as [-> | Hne]; [now rewrite E | reflexivity].
Qed.

(** Invocations with pairwise different ids double the elements they
    name and leave the others. *)
Lemma invoke_lookup (ids : list nat) (data : list Q) (i : nat) :
  List.NoDup ids ->
  invoke ids data !! i
  = if decide (i ∈ ids) then (fun v => v * 2.0) <$> data !! i else data !! i.
Proof.
  intros Hnd. revert data. induction Hnd as [| id ids Hid Hnd IH]; intros data.
  - cbn. destruct (decide (i ∈ [])) as [C | _]; [| reflexivity].
    now apply not_elem_of_nil in C.
  - change (invoke (id :: ids) data) with (invoke ids (computeSomething id data)).
    rewrite IH, computeSomething_lookup.
    destruct (decide (i = id)) as [-> | Hne].
    + destruct (decide (id ∈ ids)) as [C | _].
      * exfalso. apply Hid. now apply list_elem_of_In.
      * destruct (decide (id ∈ id :: ids)) as [_ | C]; [reflexivity |].
        exfalso. apply C. left.
    + destruct (decide (i ∈ ids)) as [Hin | Hout];
        destruct (decide (i ∈ id :: ids)) as [Hin' | Hout']; try reflexivity.
      * exfalso. apply Hout'. now right.
      * exfalso. apply elem_of_cons in Hin'. destruct Hin'; contradiction.
Qed.

(** X24. The compute pass doubles every element, in whatever order the
    invocations run: any order of the ids 0 to [n - 1] over an array of
    [n] elements yields the array of the doubles, of the same length; for
    the input [1, 3, 5] of [renderCompute] the result is [2, 6, 10]. *)
Theorem doubling_any_order (input : list Q) (ids : list nat) :
  Permutation ids (seq 0 (List.length input)) ->
  invoke ids input = map (fun v => v * 2.0) input
  /\ doubling input = map (fun v => v * 2.0) input
  /\ List.length (doubling input) = List.length input
  /\ Forall2 Qeq renderCompute [2; 6; 10].
Proof.
  intros Hp.
  assert (G : forall ids', Permutation ids' (seq 0 (List.length input)) ->
                invoke ids' input = map (fun v => v * 2.0) input).
  { intros ids' Hp'. apply list_eq. intros i.
    rewrite invoke_lookup.
    - change (map (fun v => v * 2.0) input) with ((fun v => v * 2.0) <$> input).
      rewrite list_lookup_fmap.
      destruct (decide (i ∈ ids')) as [_ | Hout]; [reflexivity |].
      destruct (input !! i) as [v |] eqn:E; [| reflexivity].
      exfalso. apply Hout. apply list_elem_of_In.
      apply (Permutation_in _ (Permutation_sym Hp')).
      apply in_seq. apply lookup_lt_Some in E. lia.
    - apply (Permutation_NoDup (Permutation_sym Hp')). apply List.seq_NoDup. }
  split; [apply G, Hp |].
  assert (D : doubling input = map (fun v => v * 2.0) input).
  { unfold doubling, dispatchWorkgroups. apply G. reflexivity. }
  split; [exact D |]. split; [rewrite D; apply length_map |].
  unfold renderCompute.
  repeat constructor.
Qed.

Lemma doubling_any_order_witness :
  Permutation [2; 0; 1]%nat (seq 0 (List.length [1; 3; 5]))
  /\ invoke [2; 0; 1]%nat [1; 3; 5] = map (fun v => v * 2.0) [1; 3; 5].
Proof.
  assert (H : Permutation [2; 0; 1]%nat (seq 0 (List.length [1; 3; 5]))).
  { apply (Permutation_cons_app [0; 1]%nat [] 2%nat). reflexivity. }
  split; [exact H |].
  destruct (doubling_any_order [1; 3; 5] [2; 0; 1]%nat H) as [I _].
  exact I.
Defined.
End ComputeFacts.

(** ** Start-up paths without a check *)

Module StartupUncheckedFacts.
Import Startup StartupUnchecked.

(** X25. The grid demos and the static grid do not report a missing
    WebGPU: when [navigator.gpu] is missing or no adapter is returned,
    [initGrid2d] and [main] of [src/testDraw.js] end with a rejected
    promise, having raised no alert, logged no error and set nothing up,
    whatever the code after the device would have done. *)
Theorem unchecked_startups_fail_silently
    (navigator : Navigator) (rest rest' : Device -> Async unit) :
  unsupported navigator = true ->
  silent (initGrid2d navigator rest) /\ rejected (initGrid2d navigator rest)
  /\ silent (main navigator rest') /\ rejected (main navigator rest').
Proof.
  intros H. unfold silent, rejected.
  destruct (StartupFacts.unsupported_cases navigator H) as [-> | ->]; cbn;
    repeat split; eexists; reflexivity.
Qed.

Lemma unchecked_startups_fail_silently_witness :
  unsupported (mkNavigator None) = true
  /\ rejected (initGrid2d (mkNavigator None) (fun _ => emit Observe))
  /\ rejected (main (mkNavigator None) (fun _ => emit Render)).
Proof.
  split; [reflexivity |].
  destruct (unchecked_startups_fail_silently (mkNavigator None)
              (fun _ => emit Observe) (fun _ => emit Render) eq_refl)
    as (_ & R1 & _ & R2).
  split; [exact R1 | exact R2].
Defined.
End StartupUncheckedFacts.

(** ** The visible range in double precision *)

Module LineGridDoubleFacts.
Import LineGridDouble.


End LineGridDoubleFacts.
